(** * Network-traffic enrichment pipeline (analisi_network_script_4.0.py)

A shallow embedding of the enrichment core of the script: the two
lookup indices (exact-match IP -> service, longest-prefix IP ->
location), the row filter, the three row-annotation steps and the
streaming driver [run_user_python_code] with its progress, milestone
and file-publication behaviour.

Conventions of the embedding.
- A Python [str] is a [string]; every character stands for the code
  point with the same number (0..255), so [strip], [lower] and the
  regular-expression class [\d] are the Python ones restricted to
  that range.  Log texts are kept as opaque byte strings.
- A Python value that is either [None] or a [str] is an
  [option string]; [v or ""] is [or_empty v].
- A CSV row ([dict] from column name to value) is a
  [gmap string (option string)]; the IP -> service index is a
  [gmap string string].  Dictionaries that are iterated
  (ServiceMap, LocationMap, PORT_COMMENTS) are association lists in
  insertion order, which is the order Python iterates them in.
- The standard module [ipaddress] is modelled by [IPv4Address] and
  [ip_network] below. *)

From Stdlib Require Import ZArith List String Ascii Bool Lia QArith.
From Stdlib Require Import DecimalString Sorted Permutation.
From stdpp Require Import gmap strings list.

Open Scope string_scope.
Open Scope Z_scope.

(* ===================================================================== *)
(** * Python string operations *)
(* ===================================================================== *)

Module PyStr.

(** [str.isspace] on the code points below 256. *)
Definition isspace (c : ascii) : bool :=
  let n := N_of_ascii c in
  ((9 <=? n) && (n <=? 13))%N || ((28 <=? n) && (n <=? 32))%N
  || (n =? 133)%N || (n =? 160)%N.

(** [\d] / [str.isdigit() and str.isascii()] on one character. *)
Definition isdigit (c : ascii) : bool :=
  let n := N_of_ascii c in ((48 <=? n) && (n <=? 57))%N.

(** [str.lower] on one code point below 256: A-Z and the Latin-1
    capitals (without the multiplication sign) gain 32. *)
Definition lower_char (c : ascii) : ascii :=
  let n := N_of_ascii c in
  if ((65 <=? n) && (n <=? 90))%N
     || ((192 <=? n) && (n <=? 222) && negb (n =? 215))%N
  then ascii_of_N (n + 32) else c.

Fixpoint lower (s : string) : string :=
  match s with
  | EmptyString => EmptyString
  | String c s' => String (lower_char c) (lower s')
  end.

Fixpoint lstrip (s : string) : string :=
  match s with
  | EmptyString => EmptyString
  | String c s' => if isspace c then lstrip s' else s
  end.

(** [rstrip]: drop the trailing run of white space. *)
Fixpoint rstrip (s : string) : string :=
  match s with
  | EmptyString => EmptyString
  | String c s' =>
      match rstrip s' with
      | EmptyString => if isspace c then EmptyString else String c EmptyString
      | r => String c r
      end
  end.

Definition strip (s : string) : string := rstrip (lstrip s).

(** [needle in hay] for two strings. *)
Fixpoint contains (needle hay : string) : bool :=
  String.prefix needle hay
  || match hay with
     | EmptyString => false
     | String _ hay' => contains needle hay'
     end.

(** Truthiness of a string: [bool(s)]. *)
Definition truthy (s : string) : bool :=
  match s with EmptyString => false | _ => true end.

(** [s.split(sep)] for a one-character separator. *)
Fixpoint split (sep : ascii) (s : string) : list string :=
  match s with
  | EmptyString => [EmptyString]
  | String c s' =>
      if Ascii.eqb c sep then EmptyString :: split sep s'
      else match split sep s' with
           | [] => [String c EmptyString]
           | w :: ws => String c w :: ws
           end
  end.

(** [sep.join(l)]. *)
Fixpoint join (sep : string) (l : list string) : string :=
  match l with
  | [] => EmptyString
  | [x] => x
  | x :: l' => x ++ sep ++ join sep l'
  end.

(** [all(c.isdigit() for c in s)] (true on the empty string). *)
Fixpoint all_digits (s : string) : bool :=
  match s with
  | EmptyString => true
  | String c s' => isdigit c && all_digits s'
  end.

(** [int(s, 10)] for a string of ASCII digits. *)
Fixpoint int_of_digits_acc (acc : Z) (s : string) : Z :=
  match s with
  | EmptyString => acc
  | String c s' => int_of_digits_acc (10 * acc + (Z.of_N (N_of_ascii c) - 48)) s'
  end.
Definition int_of_digits (s : string) : Z := int_of_digits_acc 0 s.

(** [str(z)] for an integer. *)
Definition str_of_Z (z : Z) : string := NilZero.string_of_int (Z.to_int z).

End PyStr.

(** [v or ""] for a value that is [None] or a string. *)
Definition or_empty (v : option string) : string :=
  match v with Some s => s | None => EmptyString end.

(** A CSV row: [row.get(col)] is [get row col]. *)
Abbreviation row := (gmap string (option string)).

Definition get (r : row) (col : string) : option string :=
  match r !! col with Some v => v | None => None end.

(* ===================================================================== *)
(** * The module [ipaddress], IPv4 side *)
(* ===================================================================== *)

Module ipaddress.

(** [IPv4Address._parse_octet]: one to three ASCII digits, no leading
    zero unless the octet is "0", value at most 255. *)
Definition parse_octet (s : string) : option Z :=
  if negb (PyStr.truthy s) then None
  else if negb (PyStr.all_digits s) then None
  else if (3 <? String.length s)%nat then None
  else if negb (String.eqb s "0") && String.prefix "0" s then None
  else let v := PyStr.int_of_digits s in
       if 255 <? v then None else Some v.

(** [IPv4Address._ip_int_from_string]. *)
Definition ip_int_from_string (s : string) : option Z :=
  if negb (PyStr.truthy s) then None
  else match PyStr.split "." s with
       | [a; b; c; d] =>
           match parse_octet a, parse_octet b, parse_octet c, parse_octet d with
           | Some a, Some b, Some c, Some d =>
               Some (Z.lor (Z.shiftl a 24) (Z.lor (Z.shiftl b 16) (Z.lor (Z.shiftl c 8) d)))
           | _, _, _, _ => None
           end
       | _ => None
       end.

(** [IPv4Address(s)] for a string: a "/" is refused, then the dotted
    quad is parsed.  [None] stands for [AddressValueError]. *)
Definition IPv4Address (s : string) : option Z :=
  if PyStr.contains "/" s then None else ip_int_from_string s.

Definition ALL_ONES : Z := 2 ^ 32 - 1.

(** The netmask of a prefix length: [ALL_ONES ^ (ALL_ONES >> prefixlen)]. *)
Definition netmask_of_prefix (p : Z) : Z :=
  Z.lxor ALL_ONES (Z.shiftr ALL_ONES p).

(** [_prefix_from_prefix_string]: ASCII digits, value in 0..32. *)
Definition prefix_from_prefix_string (s : string) : option Z :=
  if negb (PyStr.truthy s) || negb (PyStr.all_digits s) then None
  else let p := PyStr.int_of_digits s in
       if p <=? 32 then Some p else None.

(** [_prefix_from_ip_int]: the prefix length whose netmask is [m]. *)
Definition prefix_from_ip_int (m : Z) : option Z :=
  List.find (fun p => netmask_of_prefix p =? m) (map Z.of_nat (seq 0 33)).

(** [_prefix_from_ip_string]: a dotted netmask, else a dotted hostmask. *)
Definition prefix_from_ip_string (s : string) : option Z :=
  match ip_int_from_string s with
  | None => None
  | Some m =>
      match prefix_from_ip_int m with
      | Some p => Some p
      | None => prefix_from_ip_int (Z.lxor m ALL_ONES)
      end
  end.

(** [_make_netmask] on the text after the "/". *)
Definition make_netmask (s : string) : option Z :=
  match prefix_from_prefix_string s with
  | Some p => Some p
  | None => prefix_from_ip_string s
  end.

(** A network: IPv4 with its (masked) network address and prefix
    length, or IPv6, of which only the prefix length matters here. *)
Inductive network :=
| IPv4Network (network_address : Z) (prefixlen : Z)
| IPv6Network (network_address : Z) (prefixlen : Z).

Definition prefixlen (n : network) : Z :=
  match n with IPv4Network _ p | IPv6Network _ p => p end.

(** [IPv4Network(s, strict=False)]: host bits are masked away. *)
Definition IPv4Network_of_string (s : string) : option network :=
  match PyStr.split "/" s with
  | [a] =>
      match IPv4Address a with
      | Some ip => Some (IPv4Network ip 32)
      | None => None
      end
  | [a; m] =>
      match IPv4Address a, make_netmask m with
      | Some ip, Some p => Some (IPv4Network (Z.land ip (netmask_of_prefix p)) p)
      | _, _ => None
      end
  | _ => None
  end.

(** [ip in network] for an IPv4 address [ip]: an IPv6 network never
    contains it (the versions differ). *)
Definition contains (n : network) (ip : Z) : bool :=
  match n with
  | IPv4Network a p => Z.land ip (netmask_of_prefix p) =? a
  | IPv6Network _ _ => false
  end.

End ipaddress.

(* ===================================================================== *)
(** * Configuration tables *)
(* ===================================================================== *)

(** [LOC_NORMALIZATION]. *)
Definition LOC_NORMALIZATION : list (string * string) :=
  [ ("risc-unknown-internet", "Public");
    ("risc-unknown-private", "Private") ].

(** [PORT_COMMENTS], in insertion order. *)
Definition PORT_COMMENTS : list (Z * string) :=
  [ (25, "SMTP"); (8080, "Proxy"); (10065, "Zscaler"); (383, "Rule OMI") ].

(** [d.get(k)] on a dictionary kept as an association list with
    distinct keys. *)
Fixpoint assoc_get {V} (k : string) (d : list (string * V)) : option V :=
  match d with
  | [] => None
  | (k', v) :: d' => if String.eqb k k' then Some v else assoc_get k d'
  end.

(** ServiceMap and LocationMap: service (location) name -> list of IP
    (CIDR) strings, in the dictionary's iteration order. *)
Abbreviation service_map := (list (string * list string)).
Abbreviation location_map := (list (string * list string)).

(* ===================================================================== *)
(** * Helper functions: IP and network utilities *)
(* ===================================================================== *)

(** [build_ip_to_service_index]: the inner loop writes
    [index[str(ip).strip()] = service] for each IP of one service. *)
Definition index_service_ips (service : string) (ips : list string)
    (index : gmap string string) : gmap string string :=
  fold_left (fun idx ip => <[PyStr.strip ip := service]> idx) ips index.

Definition build_ip_to_service_index (sm : service_map) : gmap string string :=
  fold_left (fun idx '(service, ips) => index_service_ips service ips idx) sm ∅.

(** [list.sort(key=..., reverse=True)] is a stable sort by descending
    key; it is modelled by the insertion sort that places an element
    before the first element of strictly smaller key. *)
Section StableSort.
Context {A : Type} (key : A -> Z).

Fixpoint insert_desc (x : A) (l : list A) : list A :=
  match l with
  | [] => [x]
  | y :: l' => if key y <? key x then x :: y :: l' else y :: insert_desc x l'
  end.

(** Elements are inserted in encounter order, so among equal keys the
    earlier element stays first. *)
Definition sort_desc (l : list A) : list A :=
  fold_left (fun acc x => insert_desc x acc) l [].
End StableSort.

Section SubnetIndex.
(** [ipaddress.ip_network] tries IPv4 first and IPv6 next; the IPv6
    parser of the standard library is a parameter of the model: it
    returns the network address and prefix length of an IPv6 CIDR. *)
Variable IPv6Network_of_string : string -> option (Z * Z).

(** [ipaddress.ip_network(s, strict=False)]; [None] is [ValueError]. *)
Definition ip_network (s : string) : option ipaddress.network :=
  match ipaddress.IPv4Network_of_string s with
  | Some n => Some n
  | None =>
      match IPv6Network_of_string s with
      | Some (a, p) => Some (ipaddress.IPv6Network a p)
      | None => None
      end
  end.

(** The loop of [build_subnet_index] over the CIDRs of one location:
    an unparsable CIDR is skipped. *)
Definition compile_cidrs (location : string) (cidrs : list string)
    (compiled : list (ipaddress.network * string))
  : list (ipaddress.network * string) :=
  fold_left (fun acc cidr =>
               match ip_network (PyStr.strip cidr) with
               | Some network => (acc ++ [(network, location)])%list
               | None => acc
               end) cidrs compiled.

Definition compile_subnets (lm : location_map)
  : list (ipaddress.network * string) :=
  fold_left (fun acc '(location, cidrs) => compile_cidrs location cidrs acc) lm [].

Definition build_subnet_index (lm : location_map)
  : list (ipaddress.network * string) :=
  sort_desc (fun item => ipaddress.prefixlen (fst item)) (compile_subnets lm).
End SubnetIndex.

(** The scan of [find_location_for_ip]: first entry containing the address. *)
Fixpoint first_match (ip : Z) (subnet_index : list (ipaddress.network * string))
  : option string :=
  match subnet_index with
  | [] => None
  | (network, location) :: rest =>
      if ipaddress.contains network ip then Some location
      else first_match ip rest
  end.

(** [find_location_for_ip]; its argument is [None] or a string. *)
Definition find_location_for_ip (ip_str : option string)
    (subnet_index : list (ipaddress.network * string)) : option string :=
  let ip_str := PyStr.strip (or_empty ip_str) in
  if negb (PyStr.truthy ip_str) then None
  else match ipaddress.IPv4Address ip_str with
       | None => None
       | Some ip_obj => first_match ip_obj subnet_index
       end.

(** [re.search(rf'(?<!\d){target}(?!\d)', s)]: [prev_digit] tells whether
    the character before the current position is a digit. *)
Fixpoint search_whole_number (target : string) (prev_digit : bool) (s : string) : bool :=
  (negb prev_digit
   && String.prefix target s
   && match String.get (String.length target) s with
      | Some c => negb (PyStr.isdigit c)
      | None => true
      end)
  || match s with
     | EmptyString => false
     | String c s' => search_whole_number target (PyStr.isdigit c) s'
     end.

(** [port_matches(target_port, port_value)]. *)
Definition port_matches (target_port : Z) (port_value : option string) : bool :=
  let port_str := or_empty port_value in
  search_whole_number (PyStr.str_of_Z target_port) false port_str.

(* ===================================================================== *)
(** * Row filtering *)
(* ===================================================================== *)

(** [(row.get(col) or "").strip().lower()]. *)
Definition norm_field (r : row) (col : string) : string :=
  PyStr.lower (PyStr.strip (or_empty (get r col))).

(** [should_include_row]. *)
Definition should_include_row (r : row) (wave_filter : string)
    (server_filter : list string) (filter_columns : list string)
    (case_sensitive : bool) : bool :=
  (* Filter 1: wave/group membership *)
  let wave_ok :=
    if PyStr.truthy wave_filter then
      if case_sensitive then
        existsb (fun col => PyStr.contains wave_filter (or_empty (get r col)))
                filter_columns
      else
        let wave_lower := PyStr.lower wave_filter in
        existsb (fun col => PyStr.contains wave_lower (PyStr.lower (or_empty (get r col))))
                filter_columns
    else true in
  if negb wave_ok then false
  else
    (* Filter 2: server name filter *)
    let server_ok :=
      match server_filter with
      | [] => true
      | _ =>
          let src_name := norm_field r "src_name" in
          let dest_name := norm_field r "dest_name" in
          existsb (fun srv => PyStr.contains (PyStr.lower srv) src_name
                              || PyStr.contains (PyStr.lower srv) dest_name)
                  server_filter
      end in
    if negb server_ok then false
    else
      (* Filter 3: self-talking rows are dropped *)
      let src_name := norm_field r "src_name" in
      let dest_name := norm_field r "dest_name" in
      if PyStr.truthy src_name && PyStr.truthy dest_name && String.eqb src_name dest_name
      then false
      else true.

(* ===================================================================== *)
(** * Row enrichment *)
(* ===================================================================== *)

(** [row[col] = v]. *)
Definition setitem (r : row) (col : string) (v : string) : row := <[col := Some v]> r.

(** [enrich_row_with_services]. *)
Definition enrich_row_with_services (r : row) (ip_to_service : gmap string string) : row :=
  let src_ip := PyStr.strip (or_empty (get r "src_addr")) in
  let dest_ip := PyStr.strip (or_empty (get r "dest_addr")) in
  let r := setitem r "src_service" (default "unknown" (ip_to_service !! src_ip)) in
  setitem r "dest_service" (default "unknown" (ip_to_service !! dest_ip)).

(** One round of the normalisation loop of [enrich_row_with_locations]. *)
Definition normalize_loc (r : row) (col : string) : row :=
  let current := PyStr.strip (or_empty (get r col)) in
  if PyStr.truthy current then
    match assoc_get (PyStr.lower current) LOC_NORMALIZATION with
    | Some normalized => setitem r col normalized
    | None => r
    end
  else r.

(** [enrich_row_with_locations]. *)
Definition enrich_row_with_locations (r : row)
    (subnet_index : list (ipaddress.network * string)) : row :=
  let src_ip := PyStr.strip (or_empty (get r "src_addr")) in
  let dest_ip := PyStr.strip (or_empty (get r "dest_addr")) in
  let r := match find_location_for_ip (Some src_ip) subnet_index with
           | Some src_loc => setitem r "src_loc" src_loc
           | None => r
           end in
  let r := match find_location_for_ip (Some dest_ip) subnet_index with
           | Some dest_loc => setitem r "dest_loc" dest_loc
           | None => r
           end in
  fold_left normalize_loc ["src_loc"; "dest_loc"] r.

(** The loop over [PORT_COMMENTS.items()] with its [break]: the label
    of the first rule whose port matches, else the empty comment. *)
Fixpoint first_port_comment (rules : list (Z * string)) (dest_port : option string)
  : string :=
  match rules with
  | [] => ""
  | (port, label) :: rules' =>
      if port_matches port dest_port then label
      else first_port_comment rules' dest_port
  end.

(** [enrich_row_with_comment]. *)
Definition enrich_row_with_comment (r : row) : row :=
  let src_service := norm_field r "src_service" in
  let dest_service := norm_field r "dest_service" in
  let comment :=
    if negb (String.eqb src_service "unknown") || negb (String.eqb dest_service "unknown")
    then "skip shared services"
    else first_port_comment PORT_COMMENTS (get r "dest_port") in
  if PyStr.truthy comment then setitem r "COMMENTO" comment else r.

(* ===================================================================== *)
(** * Reading and writing CSV records *)
(* ===================================================================== *)

(** A CSV file is the list of records [csv.reader] yields from it, a
    record being its list of fields. *)
Abbreviation csv_table := (list (list string)).

(** [dict(zip(fieldnames, record))] followed by the fill of the missing
    trailing fields with [restval = None]; a later duplicate column name
    overwrites an earlier one. *)
Fixpoint zip_row (fieldnames : list string) (record : list string) (r : row) : row :=
  match fieldnames, record with
  | [], _ => r
  | k :: ks, [] => zip_row ks [] (<[k := None]> r)
  | k :: ks, v :: vs => zip_row ks vs (<[k := Some v]> r)
  end.

(** One [DictReader] row: the dictionary, and whether the record had
    more fields than the header (they are stored under the key [None],
    which is no column name). *)
Definition dict_row (fieldnames : list string) (record : list string) : row * bool :=
  (zip_row fieldnames record ∅, (length fieldnames <? length record)%nat).

(** [DictReader] skips the empty records. *)
Definition nonblank (record : list string) : bool :=
  match record with [] => false | _ => true end.

(** The record [DictWriter.writerow] writes: one field per output
    column, [None] and a missing key written as the empty field. *)
Definition row_record (fieldnames : list string) (r : row) : list string :=
  map (fun k => or_empty (get r k)) fieldnames.

(* ===================================================================== *)
(** * Loading the mapping tables from the workbook *)
(* ===================================================================== *)

(** Errors a run can end with. *)
Inductive exn :=
| ValueError (msg : string)
| TypeError (msg : string)
| RuntimeError (msg : string)
| OSError (msg : string).

(** A worksheet is its grid of cells; a cell is [None] when its value is
    empty or falsy and [Some s] with [s = str(value)] otherwise, so that
    [str(value or "")] is [or_empty].  A workbook lists its sheets by
    name. *)
Abbreviation sheet := (list (list (option string))).
Abbreviation workbook := (list (string * sheet)).

(** [str(ws.cell(row=r, column=c).value or "").strip()], 1-based. *)
Definition cell_text (ws : sheet) (r c : nat) : string :=
  PyStr.strip (or_empty (nth (c - 1) (nth (r - 1) ws []) None)).

Definition max_row (ws : sheet) : nat := length ws.
Definition max_column (ws : sheet) : nat :=
  fold_right Nat.max 0%nat (map (@length _) ws).

(** The header dictionary: lower-cased trimmed title -> column number;
    a later column of the same title wins. *)
Definition sheet_headers (ws : sheet) : gmap string nat :=
  fold_left (fun h c => <[PyStr.lower (cell_text ws 1 c) := c]> h)
            (seq 1 (max_column ws)) ∅.

(** [d.setdefault(k, [])] followed by the append of [v] when [v] is not
    yet in [d[k]]. *)
Fixpoint add_unique (k v : string) (d : list (string * list string))
  : list (string * list string) :=
  match d with
  | [] => [(k, [v])]
  | (k', vs) :: d' =>
      if String.eqb k k'
      then (k', if existsb (String.eqb v) vs then vs else (vs ++ [v])%list) :: d'
      else (k', vs) :: add_unique k v d'
  end.

(** The row loop shared by the two sheets: the name cell and the value
    cell of each data row, empty ones skipped, the value kept only when
    [valid]. *)
Definition load_sheet_rows (ws : sheet) (col_name col_value : nat)
    (valid : string -> bool) : list (string * list string) :=
  fold_left (fun d r =>
               let name := cell_text ws r col_name in
               let value := cell_text ws r col_value in
               if negb (PyStr.truthy name) || negb (PyStr.truthy value) then d
               else if negb (valid value) then d
               else add_unique name value d)
            (seq 2 (max_row ws - 1)) [].

Section Loader.
Variable IPv6Network_of_string : string -> option (Z * Z).

(** [load_mappings_from_excel] on the workbook [load_workbook] returned. *)
Definition load_mappings_from_workbook (wb : workbook)
  : exn + (service_map * location_map) :=
  match assoc_get "location" wb with
  | None => inl (ValueError "Nel file Excel manca il foglio 'location'.")
  | Some ws_loc =>
      let headers_loc := sheet_headers ws_loc in
      match headers_loc !! "location", headers_loc !! "subnet" with
      | None, _ => inl (ValueError "Nel foglio 'location' manca la colonna 'location'.")
      | _, None => inl (ValueError "Nel foglio 'location' manca la colonna 'subnet'.")
      | Some col_loc, Some col_sub =>
          let location_to_subnets :=
            load_sheet_rows ws_loc col_loc col_sub
              (fun sub => bool_decide (is_Some (ip_network IPv6Network_of_string sub))) in
          match assoc_get "servizi" wb with
          | None => inl (ValueError "Nel file Excel manca il foglio 'servizi'.")
          | Some ws_srv =>
              let headers_srv := sheet_headers ws_srv in
              match headers_srv !! "servizio", headers_srv !! "ip_address" with
              | None, _ => inl (ValueError "Nel foglio 'servizi' manca la colonna 'servizio'.")
              | _, None => inl (ValueError "Nel foglio 'servizi' manca la colonna 'ip_address'.")
              | Some col_srv, Some col_ip =>
                  let servizio_to_ips :=
                    load_sheet_rows ws_srv col_srv col_ip
                      (fun ip => bool_decide (is_Some (ipaddress.IPv4Address ip))) in
                  inr (servizio_to_ips, location_to_subnets)
              end
          end
      end
  end.
End Loader.

(* ===================================================================== *)
(** * The world of a run: files, callbacks, clock, injected failures *)
(* ===================================================================== *)

(** What a run does to its surroundings, in order. *)
Inductive event :=
| EvLog (line : string)                       (* log_put(line) *)
| EvProgress (pct : Z)                        (* progress_set(pct) *)
| EvOpen (path : string)                      (* open(path, "r") *)
| EvCreateTemp (path : string)                (* NamedTemporaryFile(..., delete=False) *)
| EvWrite (path : string) (record : list string)   (* one record written *)
| EvClose (path : string)                     (* leaving the with block *)
| EvReplace (src dst : string).               (* os.replace(src, dst) *)

(** The CSV files by path, the events so far (oldest first), the number
    of failure points passed and the number of clock readings taken. *)
Record world := World {
  w_fs : gmap string csv_table;
  w_events : list event;
  w_ticks : nat;
  w_clock : nat
}.

Definition init_world (fs : gmap string csv_table) : world :=
  World fs [] 0 0.

(** [os.path.dirname] with its trailing separator, and [os.path.basename]. *)
Fixpoint dirname (s : string) : string :=
  match s with
  | EmptyString => EmptyString
  | String c s' => if PyStr.contains "/" s then String c (dirname s') else EmptyString
  end.

Fixpoint drop_string (n : nat) (s : string) : string :=
  match n, s with
  | O, _ => s
  | S n', String _ s' => drop_string n' s'
  | S _, EmptyString => EmptyString
  end.

Definition basename (s : string) : string := drop_string (String.length (dirname s)) s.

(** The horizontal ellipsis of the log texts, as its UTF-8 bytes. *)
Definition hellip : string :=
  String (ascii_of_nat 226) (String (ascii_of_nat 128) (String (ascii_of_nat 166) EmptyString)).

Definition STEPS : list string :=
  [ "Sto aprendo il barattolo di Nutella" ++ hellip;
    "Prendo una bella cucchiaiata" ++ hellip;
    "Sto spalmando con generosit" ++ String (ascii_of_nat 195) (String (ascii_of_nat 160) " la Nutella") ++ hellip;
    "Un'altra bella cucchiaiata di Nutella" ++ hellip;
    "Barattolo di Nutella finito!" ].

Definition THRESHOLDS : list Z := [0; 25; 50; 75; 100].

(** [f"{n:,}"]: decimal digits grouped by three from the right. *)
Fixpoint group_thousands (digits_rev : list ascii) : list ascii :=
  match digits_rev with
  | a :: b :: c :: ((_ :: _) as rest) => a :: b :: c :: ","%char :: group_thousands rest
  | _ => digits_rev
  end.

Definition str_thousands (z : Z) : string :=
  string_of_list_ascii
    (rev (group_thousands (rev (list_ascii_of_string (PyStr.str_of_Z z))))).

(** [FILTER_COLUMNS], [CASE_SENSITIVE] and the columns the enrichment
    adds. *)
Definition FILTER_COLUMNS : list string := ["src_group"; "dest_group"].
Definition CASE_SENSITIVE : bool := true.
Definition NEW_COLUMNS : list string :=
  ["src_service"; "dest_service"; "src_loc"; "dest_loc"; "COMMENTO"].

(** The output header: the input columns, then the new columns not
    already present, one after the other. *)
Definition output_fieldnames (fieldnames : list string) : list string :=
  fold_left (fun fs col => if existsb (String.eqb col) fs then fs else (fs ++ [col])%list)
            NEW_COLUMNS fieldnames.

(** The loop state of the processing pass. *)
Record loop_state := LoopState {
  processed : Z;
  next_step : nat;
  last_ui_progress : Q;
  last_ui_log : Q;
  outbound_count : gmap string Z;
  inbound_count : gmap string Z
}.

(** [{srv: 0 for srv in server_filter} if server_filter else {}]. *)
Definition zero_counts (server_filter : list string) : gmap string Z :=
  fold_left (fun d srv => <[srv := 0]> d) server_filter ∅.

(** [count[srv] += 1]. *)
Definition incr (srv : string) (count : gmap string Z) : gmap string Z :=
  <[srv := default 0 (count !! srv) + 1]> count.

(** The counter update of one surviving row. *)
Definition update_counts (server_filter : list string) (r : row)
    (counts : gmap string Z * gmap string Z) : gmap string Z * gmap string Z :=
  let src_name := norm_field r "src_name" in
  let dest_name := norm_field r "dest_name" in
  fold_left (fun '(out, inb) srv =>
               let srv_lower := PyStr.lower srv in
               (if PyStr.contains srv_lower src_name then incr srv out else out,
                if PyStr.contains srv_lower dest_name then incr srv inb else inb))
            server_filter counts.

(** [int(processed * 100 / total) if total else 0].  The quotient is a
    float that [int] truncates; for counts below 2^46 the rounding of
    the float never reaches the next integer, so the value is the
    integer quotient. *)
Definition percent (processed total : Z) : Z :=
  if total =? 0 then 0 else processed * 100 / total.

(* ===================================================================== *)
(** * The streaming driver *)
(* ===================================================================== *)

(** A computation of the driver: it reads and changes the world and
    ends with a value or with a raised error. *)
Definition M (A : Type) : Type := world -> (exn + A) * world.

Definition ret {A} (a : A) : M A := fun w => (inr a, w).
Definition raise {A} (e : exn) : M A := fun w => (inl e, w).
Definition bind {A B} (c : M A) (k : A -> M B) : M B :=
  fun w => match c w with
           | (inl e, w') => (inl e, w')
           | (inr a, w') => k a w'
           end.

Declare Scope run_scope.
Delimit Scope run_scope with run.
Notation "x <- c ; k" := (bind c (fun x => k))
  (at level 100, c at next level, right associativity) : run_scope.
Notation "c ;; k" := (bind c (fun _ => k))
  (at level 100, right associativity) : run_scope.

(** [if b: c]. *)
Definition when (b : bool) (c : M unit) : M unit := if b then c else ret tt.

(** [for x in l: f(x)]. *)
Fixpoint for_each {A} (l : list A) (f : A -> M unit) : M unit :=
  match l with
  | [] => ret tt
  | x :: l' => bind (f x) (fun _ => for_each l' f)
  end.

Definition nonempty {A} (l : list A) : bool :=
  match l with [] => false | _ => true end.

Definition str_in (x : string) (l : list string) : bool := existsb (String.eqb x) l.

Section Driver.
(** The surroundings of a run: the IPv6 parser of [ipaddress], the
    failure injected at each failure point (none, or the error raised
    there), the successive readings of [time.time()], [load_workbook]
    (absent when openpyxl is not installed), the time stamp of
    [datetime.now()] and the random part of the temporary file name. *)
Variable IPv6Network_of_string : string -> option (Z * Z).
Variable fault : nat -> option exn.
Variable clock : nat -> Q.
Variable load_workbook : option (string -> exn + workbook).
Variable timestamp : string.
Variable tmp_random : string.

(** A failure point: the injected error is raised here when there is
    one; otherwise the event is recorded and the files updated. *)
Definition effect (ev : list event) (upd : gmap string csv_table -> gmap string csv_table)
  : M unit :=
  fun w =>
    match fault (w_ticks w) with
    | Some e => (inl e, World (w_fs w) (w_events w) (S (w_ticks w)) (w_clock w))
    | None => (inr tt, World (upd (w_fs w)) (w_events w ++ ev) (S (w_ticks w)) (w_clock w))
    end.

Definition log_put (line : string) : M unit := effect [EvLog line] id.
Definition progress_set (pct : Z) : M unit := effect [EvProgress pct] id.

(** Reading the next record of an open file. *)
Definition read_next : M unit := effect [] id.

(** [time.time()]. *)
Definition time_time : M Q :=
  fun w => (inr (clock (w_clock w)),
            World (w_fs w) (w_events w) (w_ticks w) (S (w_clock w))).

(** [open(path, "r")]: the records of the file, or [FileNotFoundError]. *)
Definition open_read (path : string) : M csv_table :=
  (effect [EvOpen path] id ;;
   fun w => match w_fs w !! path with
            | Some table => (inr table, w)
            | None => (inl (OSError ("No such file or directory: " ++ path)), w)
            end)%run.

(** [NamedTemporaryFile("w", delete=False, dir=out_dir)]: an empty file. *)
Definition create_temp (path : string) : M unit :=
  effect [EvCreateTemp path] (fun fs => <[path := []]> fs).

(** One record appended to the file at [path]. *)
Definition write_record (path : string) (record : list string) : M unit :=
  effect [EvWrite path record]
         (fun fs => <[path := (default [] (fs !! path) ++ [record])%list]> fs).

Definition close (path : string) : M unit := effect [EvClose path] id.

(** [os.replace(src, dst)]: [dst] becomes the file [src] was, [src] is gone. *)
Definition os_replace (src dst : string) : M unit :=
  effect [EvReplace src dst]
         (fun fs => match fs !! src with
                    | Some table => <[dst := table]> (delete src fs)
                    | None => fs
                    end).

(** [load_mappings_from_excel(xlsx_path)]. *)
Definition load_mappings_from_excel (xlsx_path : string)
  : M (service_map * location_map) :=
  if negb (PyStr.truthy xlsx_path) then ret ([], [])
  else match load_workbook with
       | None => raise (RuntimeError "Per leggere l'Excel serve 'openpyxl'. Installa con: pip install openpyxl")
       | Some load =>
           match load xlsx_path with
           | inl e => raise e
           | inr wb =>
               match load_mappings_from_workbook IPv6Network_of_string wb with
               | inl e => raise e
               | inr maps => ret maps
               end
           end
       end.

(** [writer.writerow(row)]: a row with a key that is no output column
    (the extra fields of a long record) is refused. *)
Definition writerow (path : string) (fieldnames : list string) (r : row)
    (extras : bool) : M unit :=
  if extras then raise (ValueError "dict contains fields not in fieldnames: None")
  else write_record path (row_record fieldnames r).

Section Passes.
Variable server_filter : list string.
Variable wave_filter : string.
Variable fieldnames : list string.
Variable out_fieldnames : list string.
Variable ip_to_service : gmap string string.
Variable subnet_index : list (ipaddress.network * string).
Variable tmp_path : string.
Variable total_rows_to_process : Z.

Definition included (record : list string) : bool :=
  nonblank record
  && should_include_row (fst (dict_row fieldnames record)) wave_filter
                        server_filter FILTER_COLUMNS CASE_SENSITIVE.

(** First pass: the number of rows that pass the filter. *)
Fixpoint count_rows (records : csv_table) (total : Z) : M Z :=
  match records with
  | [] => ret total
  | record :: rest =>
      (read_next ;;
       count_rows rest (if included record then total + 1 else total))%run
  end.

(** The progress accounting at the end of one loop round. *)
Definition report_progress (st : loop_state) : M loop_state :=
  (let processed := processed st + 1 in
   now <- time_time ;
   let pct := percent processed total_rows_to_process in
   next_step <-
     (if (next_step st <? length THRESHOLDS)%nat
         && (nth (next_step st) THRESHOLDS 0 <=? pct)
      then log_put (nth (next_step st) STEPS "") ;; ret (S (next_step st))
      else ret (next_step st)) ;
   last_ui_progress <-
     (if Qle_bool 1 (now - last_ui_progress st) || (processed =? total_rows_to_process)
      then progress_set pct ;; ret now
      else ret (last_ui_progress st)) ;
   last_ui_log <-
     (if Qle_bool 2 (now - last_ui_log st) || (processed =? total_rows_to_process)
      then log_put ("Row " ++ PyStr.str_of_Z processed ++ "/"
                    ++ PyStr.str_of_Z total_rows_to_process ++ "  ("
                    ++ PyStr.str_of_Z pct ++ "% done)") ;; ret now
      else ret (last_ui_log st)) ;
   ret (LoopState processed next_step last_ui_progress last_ui_log
                  (outbound_count st) (inbound_count st)))%run.

(** One round of the second pass on a row that passed the filter. *)
Definition process_row (st : loop_state) (r : row) (extras : bool) : M loop_state :=
  (let '(out, inb) :=
     if nonempty server_filter
     then update_counts server_filter r (outbound_count st, inbound_count st)
     else (outbound_count st, inbound_count st) in
   let st := LoopState (processed st) (next_step st) (last_ui_progress st)
                       (last_ui_log st) out inb in
   let r := enrich_row_with_services r ip_to_service in
   let r := enrich_row_with_locations r subnet_index in
   let r := enrich_row_with_comment r in
   writerow tmp_path out_fieldnames r extras ;;
   report_progress st)%run.

(** Second pass: filter, count, enrich, write, report. *)
Fixpoint process_rows (records : csv_table) (st : loop_state) : M loop_state :=
  match records with
  | [] => ret st
  | record :: rest =>
      (read_next ;;
       if included record
       then (let '(r, extras) := dict_row fieldnames record in
             st' <- process_row st r extras ;
             process_rows rest st')
       else process_rows rest st)%run
  end.
End Passes.

Definition final_path (selected_file : string) : string :=
  dirname selected_file ++ "nutella_" ++ timestamp ++ ".csv".

Definition tmp_path (selected_file : string) : string :=
  dirname selected_file ++ "tmp" ++ tmp_random.

(** The body of the [with] block, once both files are open. *)
Definition transform (selected_file : string) (server_filter : list string)
    (wave_filter : string) (ip_to_service : gmap string string)
    (subnet_index : list (ipaddress.network * string))
    (src : csv_table) : M loop_state :=
  (let tmp := tmp_path selected_file in
   read_next ;;
   match src with
   | [] => raise (TypeError "argument of type 'NoneType' is not iterable")
   | fieldnames :: records =>
       let missing := List.filter (fun c => negb (str_in c fieldnames)) FILTER_COLUMNS in
       if nonempty missing
       then raise (ValueError ("Missing columns: " ++ PyStr.join ", " missing))
       else if nonempty server_filter
               && (negb (str_in "src_name" fieldnames) || negb (str_in "dest_name" fieldnames))
       then raise (ValueError "Colonne 'src_name' o 'dest_name' non trovate nel CSV")
       else
         let out_fieldnames := output_fieldnames fieldnames in
         write_record tmp out_fieldnames ;;
         total_rows_to_process <- count_rows server_filter wave_filter fieldnames records 0 ;
         log_put ("Righe da processare: " ++ PyStr.str_of_Z total_rows_to_process) ;;
         read_next ;;
         st <- process_rows server_filter wave_filter fieldnames out_fieldnames
                 ip_to_service subnet_index tmp total_rows_to_process records
                 (LoopState 0 0 0 0 (zero_counts server_filter) (zero_counts server_filter)) ;
         close tmp ;;
         ret st
   end)%run.

(** [run_user_python_code].  The first opening of the input counts its
    lines; the count is logged only, and is taken here as the number of
    records (one record per line). *)
Definition run_user_python_code (selected_file selected_excel : string)
    (server_filter : list string) (wave_filter : string) : M unit :=
  (if negb (PyStr.truthy selected_file) then raise (ValueError "Select a CSV first.")
   else if negb (PyStr.truthy selected_excel)
   then raise (ValueError "Devi selezionare l'Excel con i fogli 'servizi' e 'location'.")
   else
     log_put ("Carico mapping da Excel: " ++ selected_excel) ;;
     maps <- load_mappings_from_excel selected_excel ;
     let '(srv_map, loc_map) := maps in
     log_put (" - Servizi caricati: " ++ PyStr.str_of_Z (Z.of_nat (length srv_map))) ;;
     log_put (" - Location caricate: " ++ PyStr.str_of_Z (Z.of_nat (length loc_map))) ;;
     lines <- open_read selected_file ;
     let total_rows_raw := Z.max (Z.of_nat (length lines) - 1) 0 in
     log_put ("Found " ++ str_thousands total_rows_raw ++ " rows. Starting" ++ hellip) ;;
     when (nonempty server_filter)
          (log_put ("Filtering for servers: " ++ PyStr.join ", " server_filter)) ;;
     when (PyStr.truthy wave_filter)
          (log_put ("Filtering for wave: " ++ wave_filter)) ;;
     let ip_to_service := build_ip_to_service_index srv_map in
     let subnet_index := build_subnet_index IPv6Network_of_string loc_map in
     t0 <- time_time ;
     log_put "Conteggio righe da processare..." ;;
     src <- open_read selected_file ;
     create_temp (tmp_path selected_file) ;;
     st <- transform selected_file server_filter wave_filter ip_to_service subnet_index src ;
     progress_set 100 ;;
     os_replace (tmp_path selected_file) (final_path selected_file) ;;
     log_put ("Fatto! File processato: " ++ basename selected_file) ;;
     log_put ("File generato: " ++ basename (final_path selected_file)) ;;
     when (nonempty server_filter)
          (log_put "---- Riepilogo conteggi per server ----" ;;
           for_each server_filter
             (fun srv =>
                let out_v := default 0 (outbound_count st !! srv) in
                let in_v := default 0 (inbound_count st !! srv) in
                log_put (srv ++ ": outbound_count=" ++ PyStr.str_of_Z out_v
                         ++ " | inbound_count=" ++ PyStr.str_of_Z in_v))))%run.
End Driver.

(* ===================================================================== *)
(** * Definitions used by the statements *)
(* ===================================================================== *)

(** A string of white space only (the empty one included). *)
Fixpoint all_space (s : string) : bool :=
  match s with
  | EmptyString => true
  | String c s' => PyStr.isspace c && all_space s'
  end.

(** [lstrip] leaves a string that does not start with white space. *)
Definition starts_clean (s : string) : Prop :=
  match s with
  | EmptyString => True
  | String c _ => PyStr.isspace c = false
  end.

(** A row that talks to itself, the names differing in case and padding. *)
Definition self_talking_row : row :=
  fst (dict_row ["src_group"; "dest_group"; "src_name"; "dest_name"]
                ["Wave4"; "Wave4"; " Host1 "; "HOST1"]).

Definition scenario_header : list string :=
  ["src_group"; "dest_group"; "src_addr"; "dest_addr"; "dest_port"; "src_name"; "dest_name"].

Definition scenario_record : list string :=
  ["Wave4"; "Wave4"; "10.0.0.5"; "10.0.0.9"; "25"; "host1"; "host2"].

Definition scenario_row : row := fst (dict_row scenario_header scenario_record).

Definition scenario_locations : location_map := [("DC1", ["10.0.0.0/24"])].

(** The text before a match does not end with a digit; the text after
    it does not begin with one. *)
Definition ends_clean (pre : string) : Prop :=
  forall pre' c, pre = pre' ++ String c "" -> PyStr.isdigit c = false.

Definition begins_clean (post : string) : Prop :=
  match post with
  | EmptyString => True
  | String c _ => PyStr.isdigit c = false
  end.

(** A service value that differs from "unknown" when only the case is
    ignored, but not once it is trimmed. *)
Definition padded_unknown_row : row :=
  <["src_service" := Some " unknown"]>
    (<["dest_service" := Some "unknown"]>
       (<["dest_port" := Some "25"]> ∅)).

(** A row with a known source service and a destination port that the
    table knows. *)
Definition shared_service_row : row :=
  <["src_service" := Some "KMS"]>
    (<["dest_service" := Some "unknown"]>
       (<["dest_port" := Some "8080"]> ∅)).

Definition build_from (sm : service_map) (idx : gmap string string) : gmap string string :=
    fold_left (fun idx '(service, ips) => index_service_ips service ips idx) sm idx.

(** A ServiceMap with an entry that is no IPv4 literal. *)
Definition unvalidated_service_map : service_map := [("KMS", ["not-an-ip"])].

(** A ServiceMap in which two services list an address that trims to
    the empty string. *)
Definition two_blank_service_map : service_map :=
  [("KMS", [" "]); ("Proxy Italia", [""])].

(** A ServiceMap with one blank address, and a row without addresses. *)
Definition one_blank_service_map : service_map :=
  [("KMS", ["10.11.12.13"; "  "]); ("Flexera", ["10.11.12.14"])].

Definition addressless_row : row :=
  <["src_addr" := None]> (<["dest_addr" := Some "   "]> ∅).

(** Three nested networks under three locations. *)
Definition nested_locations : location_map :=
  [("WAN", ["10.0.0.0/8"]); ("SITE", ["10.1.0.0/16"]); ("LAN", ["10.1.2.3/24"])].

(** The order of the index: an earlier entry has a prefix at least as
    long as a later one. *)
Definition by_prefix_desc (a b : ipaddress.network * string) : Prop :=
  ipaddress.prefixlen (fst b) <= ipaddress.prefixlen (fst a).

(** ** Reasoning about computations of the driver *)

(** [wp c Q E w]: run from [w], the computation [c] either returns a
    value and a world that satisfy [Q] or raises an error in a world
    that satisfy [E]. *)
Definition wp {A} (c : M A) (Q : A -> world -> Prop) (E : exn -> world -> Prop)
    (w : world) : Prop :=
  match c w with
  | (inr a, w') => Q a w'
  | (inl e, w') => E e w'
  end.

(** [keeps I c]: the computation [c] preserves [I], however it ends. *)
Definition keeps {A} (I : world -> Prop) (c : M A) : Prop :=
  forall w, I w -> wp c (fun _ => I) (fun _ => I) w.

(** An invariant that looks at the files and the events only. *)
Definition on (P : gmap string csv_table -> list event -> Prop) (w : world) : Prop :=
  P (w_fs w) (w_events w).

(** The values passed to the progress callback, oldest first. *)
Definition progress_values (events : list event) : list Z :=
  flat_map (fun ev => match ev with EvProgress p => [p] | _ => [] end) events.

(** The lines passed to the log callback, oldest first. *)
Definition log_lines (events : list event) : list string :=
  flat_map (fun ev => match ev with EvLog l => [l] | _ => [] end) events.

(** The milestone lines among the log lines. *)
Definition milestone_lines (events : list event) : list string :=
  List.filter (fun l => str_in l STEPS) (log_lines events).

(** Events that belong to the processing pass: a record written or a
    progress value sent. *)
Definition is_processing (ev : event) : bool :=
  match ev with
  | EvWrite _ _ | EvProgress _ => true
  | _ => false
  end.

(** An event before the publication: no rename, and every file created
    or written is the temporary file. *)
Definition before_publication (tmp : string) (ev : event) : Prop :=
  match ev with
  | EvReplace _ _ => False
  | EvCreateTemp p | EvWrite p _ => p = tmp
  | _ => True
  end.

Definition is_log (ev : event) : Prop :=
  match ev with EvLog _ => True | _ => False end.

(** Before the publication: no rename so far, the temporary file is
    the only file created or written, and the destination is what it
    was when the run started. *)
Definition unpublished (fs0 : gmap string csv_table) (tmp final : string)
    (fs : gmap string csv_table) (events : list event) : Prop :=
  Forall (before_publication tmp) events /\ fs !! final = fs0 !! final.

(** After the publication: the rename is there, preceded by steps on
    the temporary file only and followed by log lines only. *)
Definition published (tmp final : string)
    (fs : gmap string csv_table) (events : list event) : Prop :=
  exists before after,
    events = (before ++ EvReplace tmp final :: after)%list
    /\ Forall (before_publication tmp) before
    /\ Forall is_log after.

(** As long as the rename has not happened, the destination is
    untouched. *)
Definition untouched_unless_renamed (fs0 : gmap string csv_table) (tmp final : string)
    (w : world) : Prop :=
  ~ In (EvReplace tmp final) (w_events w) -> w_fs w !! final = fs0 !! final.

(** Surroundings of the example runs: no IPv6 networks, no injected
    failure, a clock that advances by one second per reading. *)
Definition no_ipv6 : string -> option (Z * Z) := fun _ => None.
Definition no_fault : nat -> option exn := fun _ => None.
Definition tick_clock : nat -> Q := fun n => inject_Z (Z.of_nat n).

(** A failure injected at the [n]-th failure point. *)
Definition fault_at (n : nat) (e : exn) : nat -> option exn :=
  fun k => if (k =? n)%nat then Some e else None.

(** A workbook with one location and no service. *)
Definition scenario_workbook : workbook :=
  [ ("location", [[Some "location"; Some "subnet"]; [Some "DC1"; Some "10.0.0.0/24"]]);
    ("servizi", [[Some "servizio"; Some "hostname"; Some "ip_address"]]) ].

Definition scenario_loader : option (string -> exn + workbook) :=
  Some (fun _ => inr scenario_workbook).

(** The input file of the end-to-end scenario, and an earlier output at
    the destination path. *)
Definition scenario_files : gmap string csv_table :=
  <["data/flows.csv" := [scenario_header; scenario_record]]>
    (<["data/nutella_2026-11-03_10-00-00.csv" := [["old"]]]> ∅).

(** The progress values sent so far lie between 0 and [ub] and never
    decrease. *)
Definition progress_ok (ub : Z) (fs : gmap string csv_table) (events : list event) : Prop :=
  Forall (fun p => 0 <= p <= ub) (progress_values events)
  /\ StronglySorted Z.le (progress_values events).

(** ... and the last one sent is [p]. *)
Definition progress_ends_with (p : Z) (fs : gmap string csv_table)
    (events : list event) : Prop :=
  progress_ok p fs events
  /\ exists earlier, progress_values events = (earlier ++ [p])%list.

(** The number of records of the input that pass the filter. *)
Definition count_included (server_filter : list string) (wave_filter : string)
    (fieldnames : list string) (records : csv_table) : Z :=
  Z.of_nat (length (List.filter (included server_filter wave_filter fieldnames) records)).

Definition is_progress (ev : event) : Prop :=
  match ev with EvProgress _ => True | _ => False end.

(** The columns a run requires of the input header, and those of them
    that a header lacks. *)
Definition required_columns (server_filter : list string) : list string :=
  (FILTER_COLUMNS ++ if nonempty server_filter then ["src_name"; "dest_name"] else [])%list.

Definition missing_columns (server_filter : list string) (header : list string)
  : list string :=
  List.filter (fun c => negb (str_in c header)) (required_columns server_filter).

(** An input whose header lacks a filter column and a name column. *)
Definition headless_files : gmap string csv_table :=
  <["data/flows.csv" := [["dest_group"; "src_addr"; "dest_addr"; "dest_port"; "dest_name"]]]> ∅.

(** An input whose header lacks one filter column. *)
Definition groupless_files : gmap string csv_table :=
  <["data/flows.csv" := [["src_group"; "src_addr"; "dest_addr"; "dest_port"]]]> ∅.

(** An input in which no row passes the wave filter "Wave4". *)
Definition other_wave_files : gmap string csv_table :=
  <["data/flows.csv" := [scenario_header;
                         ["Wave9"; "Wave9"; "10.0.0.5"; "10.0.0.9"; "25"; "host1"; "host2"]]]> ∅.

(** The error the two checks of the header raise, if any: the missing
    filter columns first, the name columns otherwise. *)
Definition schema_error (header : list string) : exn :=
  let missing := List.filter (fun c => negb (str_in c header)) FILTER_COLUMNS in
  if nonempty missing
  then ValueError ("Missing columns: " ++ PyStr.join ", " missing)
  else ValueError "Colonne 'src_name' o 'dest_name' non trovate nel CSV".

(* ===================================================================== *)
(** * The run button: reading the filters *)
(* ===================================================================== *)

(** The server filter of [App._on_run]:
    [[s.strip() for s in server_text.split(",") if s.strip()] if server_text else []]
    on the trimmed text of the entry. *)
Definition parse_server_filter (text : string) : list string :=
  let server_text := PyStr.strip text in
  if PyStr.truthy server_text
  then map PyStr.strip
           (List.filter (fun s => PyStr.truthy (PyStr.strip s))
                        (PyStr.split "," server_text))
  else [].

(** The wave filter of [App._on_run]. *)
Definition parse_wave_filter (text : string) : string := PyStr.strip text.


(** A row for the filter examples. *)
Definition wave_row : row :=
  fst (dict_row ["src_group"; "dest_group"; "src_name"; "dest_name"]
                ["Wave4 - DB"; "Wave2"; "SRV-ALBA-01"; "srv-to-02"]).

(** A LocationMap in which two locations declare the same /24 and one
    of them a wider /16 as well. *)
Definition tied_locations : location_map :=
  [ ("Torino", ["10.0.0.0/16"; "10.0.0.0/24"]);
    ("Alba", ["10.0.0.0/24"]) ].

(** A LocationMap whose only subnet is written with host bits set. *)
Definition host_bits_locations : location_map :=
  [ ("Alba", [" 10.1.2.77/24 "]) ].

(** A LocationMap whose only subnet is a bare address. *)
Definition host_route_locations : location_map :=
  [ ("Alba", ["10.1.2.77"]) ].

(* ===================================================================== *)
(** * The enrichment of one row *)
(* ===================================================================== *)

(** The three enrichment steps in the order of the processing loop. *)
Definition enriched (r : row) (ip_to_service : gmap string string)
    (subnet_index : list (ipaddress.network * string)) : row :=
  enrich_row_with_comment
    (enrich_row_with_locations (enrich_row_with_services r ip_to_service) subnet_index).

(** A location label after normalisation: the replacement of the table
    when the trimmed, case-folded label is one of its keys. *)
Definition normalized_loc (v : string) : string :=
  match assoc_get (PyStr.lower (PyStr.strip v)) LOC_NORMALIZATION with
  | Some normalized => normalized
  | None => v
  end.

(** The ServiceMap lists the address of a cell under a service, or
    under none. *)
Definition listed (sm : service_map) (service : string) (addr : option string) : Prop :=
  exists ips ip, In (service, ips) sm /\ In ip ips
                 /\ PyStr.strip ip = PyStr.strip (or_empty addr).

Definition unlisted (sm : service_map) (addr : option string) : Prop :=
  forall service ips ip, In (service, ips) sm -> In ip ips ->
                         PyStr.strip ip <> PyStr.strip (or_empty addr).

(** A row between a listed and an unlisted host, with columns the
    enrichment does not own. *)
Definition kms_service_map : service_map := [("KMS", [" 10.11.12.13 "])].

Definition kms_row : row :=
  fst (dict_row ["src_addr"; "dest_addr"; "dest_port"; "src_loc"; "COMMENTO"; "bytes"]
                [" 10.11.12.13"; "192.168.1.1"; "25"; " RISC-Unknown-Private "; "old"; "1024"]).

(** A row between two hosts no ServiceMap lists, on a port without a
    rule, that comes with a comment. *)
Definition commented_row : row :=
  fst (dict_row ["src_addr"; "dest_addr"; "dest_port"; "COMMENTO"]
                ["10.0.0.5"; "10.0.0.9"; "443"; "checked by hand"]).

(** A header that already has one of the new columns, and a record of
    it that is one field short. *)
Definition located_header : list string := ["src_addr"; "src_loc"; "dest_addr"].
Definition short_record : list string := ["10.0.0.5"; "Torino"].

(** The counters after the rows that passed the filter, starting from
    zero: the loop over the rows around the loop over the servers. *)
Definition count_directions (server_filter : list string) (rows : list row)
  : gmap string Z * gmap string Z :=
  fold_left (fun counts r => update_counts server_filter r counts) rows
            (zero_counts server_filter, zero_counts server_filter).

(** The rows of a list whose normalised name in column [col] contains
    the lower-cased server name. *)
Definition rows_naming (srv col : string) (rows : list row) : list row :=
  List.filter (fun r => PyStr.contains (PyStr.lower srv) (norm_field r col)) rows.

(* ===================================================================== *)
(** * Properties of the string operations *)
(* ===================================================================== *)

Lemma truthy_true_iff (s : string) : PyStr.truthy s = true <-> s <> "".
Proof. destruct s; simpl; split; congruence. Qed.

Lemma lstrip_all_space (s : string) : all_space s = true -> PyStr.lstrip s = "".
Proof.
  induction s as [|c s IH]; simpl; [reflexivity|].
  intros [Hc Hs]%andb_prop. rewrite Hc. auto.
Qed.

Lemma strip_all_space (s : string) : all_space s = true -> PyStr.strip s = "".
Proof. intros H. unfold PyStr.strip. rewrite (lstrip_all_space _ H). reflexivity. Qed.

Lemma lstrip_starts_clean (s : string) : starts_clean (PyStr.lstrip s).
Proof.
  induction s as [|c s IH]; simpl; [exact I|].
  destruct (PyStr.isspace c) eqn:Hc; [exact IH|]. simpl. exact Hc.
Qed.

Lemma lstrip_clean_id (s : string) : starts_clean s -> PyStr.lstrip s = s.
Proof. destruct s as [|c s]; simpl; [reflexivity|]. intros ->. reflexivity. Qed.

Lemma rstrip_starts_clean (s : string) : starts_clean s -> starts_clean (PyStr.rstrip s).
Proof.
  destruct s as [|c s]; simpl; [trivial|].
  intros Hc. destruct (PyStr.rstrip s); [rewrite Hc|]; simpl; exact Hc.
Qed.

Lemma rstrip_idem (s : string) : PyStr.rstrip (PyStr.rstrip s) = PyStr.rstrip s.
Proof.
  induction s as [|c s IH]; simpl; [reflexivity|].
  destruct (PyStr.rstrip s) as [|d r] eqn:Hr.
  - destruct (PyStr.isspace c) eqn:Hc; simpl; [reflexivity|]. rewrite Hc. reflexivity.
  - simpl in *. rewrite IH. reflexivity.
Qed.

(** Trimming twice is trimming once. *)
Lemma strip_idem (s : string) : PyStr.strip (PyStr.strip s) = PyStr.strip s.
Proof.
  unfold PyStr.strip.
  rewrite (lstrip_clean_id (PyStr.rstrip (PyStr.lstrip s))).
  - apply rstrip_idem.
  - apply rstrip_starts_clean, lstrip_starts_clean.
Qed.

(* ===================================================================== *)
(** * The row filter *)
(* ===================================================================== *)

(** C4.  Self-traffic is always excluded: a row whose trimmed and
    case-folded source name and destination name are non-empty and equal
    is rejected by [should_include_row] for every wave filter, server
    filter, list of filter columns and case-sensitivity flag (the empty
    filters included). *)
Theorem self_traffic_always_excluded
    (r : row) (wave_filter : string) (server_filter filter_columns : list string)
    (case_sensitive : bool) :
  norm_field r "src_name" <> "" ->
  norm_field r "dest_name" <> "" ->
  norm_field r "src_name" = norm_field r "dest_name" ->
  should_include_row r wave_filter server_filter filter_columns case_sensitive = false.
Proof.
  intros Hsrc Hdst Heq. unfold should_include_row.
  apply truthy_true_iff in Hsrc. apply truthy_true_iff in Hdst.
  rewrite Hsrc, Hdst, Heq, String.eqb_refl. simpl.
  repeat match goal with
         | |- (if negb ?b then _ else _) = _ => destruct b; simpl; try reflexivity
         end.
Qed.

Lemma self_traffic_always_excluded_witness :
  should_include_row self_talking_row "" [] FILTER_COLUMNS CASE_SENSITIVE = false
  /\ should_include_row self_talking_row "Wave4" ["host"] FILTER_COLUMNS false = false.
Proof.
  split; apply self_traffic_always_excluded; vm_compute; congruence.
Defined.

(* ===================================================================== *)
(** * The end-to-end scenario *)
(* ===================================================================== *)

(** C2.  End-to-end scenario: the row Wave4,Wave4,10.0.0.5,10.0.0.9,25,
    host1,host2 under the seven-column header passes the filter for wave
    "Wave4", and with an empty service map and the location map
    DC1 -> 10.0.0.0/24 the three enrichment steps leave it with
    src_service = dest_service = unknown, src_loc = dest_loc = DC1 and
    COMMENTO = SMTP; the record written for it carries these five values
    after the seven input fields, and a run of the driver on this input
    publishes the output header and that record. *)
Theorem end_to_end_scenario (IPv6Network_of_string : string -> option (Z * Z)) :
  let ip_to_service := build_ip_to_service_index [] in
  let subnet_index := build_subnet_index IPv6Network_of_string scenario_locations in
  let r := enrich_row_with_comment
             (enrich_row_with_locations
                (enrich_row_with_services scenario_row ip_to_service) subnet_index) in
  let enriched_record :=
    (scenario_record ++ ["unknown"; "unknown"; "DC1"; "DC1"; "SMTP"])%list in
  should_include_row scenario_row "Wave4" [] FILTER_COLUMNS CASE_SENSITIVE = true
  /\ get r "src_service" = Some "unknown"
  /\ get r "dest_service" = Some "unknown"
  /\ get r "src_loc" = Some "DC1"
  /\ get r "dest_loc" = Some "DC1"
  /\ get r "COMMENTO" = Some "SMTP"
  /\ row_record (output_fieldnames scenario_header) r = enriched_record
  /\ w_fs (snd (run_user_python_code IPv6Network_of_string no_fault tick_clock
                  scenario_loader "2026-11-03_10-00-00" "k3x9q_ab"
                  "data/flows.csv" "mappings.xlsx" [] "Wave4"
                  (init_world scenario_files)))
       !! "data/nutella_2026-11-03_10-00-00.csv"
     = Some [ (scenario_header ++ NEW_COLUMNS)%list; enriched_record ].
Proof.
  vm_compute. repeat split; reflexivity.
Qed.

(* ===================================================================== *)
(** * Whole-number port matching *)
(* ===================================================================== *)

(** [String.append] does not unfold under [simpl]; its two equations. *)
Lemma string_app_nil (t : string) : "" ++ t = t.
Proof. reflexivity. Qed.

Lemma string_app_cons (c : ascii) (s t : string) : String c s ++ t = String c (s ++ t).
Proof. reflexivity. Qed.

Ltac string_app := rewrite ?string_app_cons, ?string_app_nil in *.

Lemma prefix_app_iff (t s : string) :
  String.prefix t s = true <-> exists post, s = t ++ post.
Proof.
  revert s. induction t as [|a t IH]; intros s.
  - split; [intros _; exists s; reflexivity | destruct s; reflexivity].
  - destruct s as [|b s]; simpl.
    + split; [discriminate | intros [post H]; discriminate].
    + destruct (ascii_dec a b) as [->|Hne].
      * rewrite IH. split; intros [post H]; exists post; string_app; congruence.
      * split; [discriminate | intros [post H]; string_app; congruence].
Qed.

Lemma get_length_app (t post : string) :
  String.get (String.length t) (t ++ post)
  = match post with EmptyString => None | String c _ => Some c end.
Proof.
  induction t as [|a t IH]; string_app; simpl; [destruct post; reflexivity | exact IH].
Qed.

Lemma app_inv_head_string (t a b : string) : t ++ a = t ++ b -> a = b.
Proof.
  induction t as [|c t IH]; string_app; [auto | intros H; apply IH; congruence].
Qed.

Lemma ends_clean_empty : ends_clean "".
Proof. intros pre' c H. destruct pre'; discriminate. Qed.

Lemma ends_clean_cons (c : ascii) (pre : string) :
  ends_clean (String c pre) <->
  (pre = "" -> PyStr.isdigit c = false) /\ ends_clean pre.
Proof.
  split.
  - intros H. split.
    + intros ->. apply (H "" c). reflexivity.
    + intros pre' d ->. apply (H (String c pre') d). reflexivity.
  - intros [H0 H] pre' d E. destruct pre' as [|x pre'']; string_app.
    + injection E as -> ->. auto.
    + injection E as -> ->. apply (H pre'' d). reflexivity.
Qed.

Lemma begins_clean_get (t post : string) :
  match String.get (String.length t) (t ++ post) with
  | Some c => negb (PyStr.isdigit c)
  | None => true
  end = true <-> begins_clean post.
Proof.
  rewrite get_length_app. destruct post; simpl; [tauto|].
  apply negb_true_iff.
Qed.

(** What the regular expression finds: the target, preceded by no
    digit and followed by no digit. *)
Lemma search_whole_number_spec (t : string) (prev : bool) (s : string) :
  search_whole_number t prev s = true <->
  exists pre post, s = pre ++ t ++ post
                   /\ (pre = "" -> prev = false)
                   /\ ends_clean pre /\ begins_clean post.
Proof.
  revert prev. induction s as [|c s IH]; intros prev.
  - cbn [search_whole_number].
    rewrite orb_false_r, !andb_true_iff, negb_true_iff, prefix_app_iff. split.
    + intros [[Hp [post E]] Hg]. exists "", post. rewrite E in Hg.
      apply begins_clean_get in Hg.
      repeat split; auto using ends_clean_empty.
    + intros (pre & post & E & Hp & _ & Hb).
      destruct pre; [|discriminate]. string_app.
      split; [split; [auto | exists post; exact E]|].
      rewrite E. now apply begins_clean_get.
  - cbn [search_whole_number].
    rewrite orb_true_iff, !andb_true_iff, negb_true_iff, prefix_app_iff, IH.
    split.
    + intros [[[Hp [post E]] Hg] | (pre & post & E & Hp & He & Hb)].
      * exists "", post. rewrite E in Hg. apply begins_clean_get in Hg.
        repeat split; auto using ends_clean_empty.
      * exists (String c pre), post. rewrite E. repeat split; auto; [discriminate|].
        apply ends_clean_cons. auto.
    + intros (pre & post & E & Hp & He & Hb). destruct pre as [|d pre].
      * left. string_app. split; [split; [auto | exists post; exact E]|].
        rewrite E. now apply begins_clean_get.
      * right. string_app. injection E as -> E. apply ends_clean_cons in He as [H0 He].
        exists pre, post. auto.
Qed.

(** [port_matches] finds the decimal form of the port as a complete
    number of the port value. *)
Lemma port_matches_spec (target_port : Z) (port_value : option string) :
  port_matches target_port port_value = true <->
  exists pre post,
    or_empty port_value = pre ++ PyStr.str_of_Z target_port ++ post
    /\ ends_clean pre /\ begins_clean post.
Proof.
  unfold port_matches. rewrite search_whole_number_spec.
  split; intros (pre & post & E & H); exists pre, post; tauto.
Qed.

(** The label of the first matching rule, by position in the table. *)
Lemma first_port_comment_first_match (rules before after : list (Z * string))
    (port : Z) (label : string) (dest_port : option string) :
  rules = (before ++ (port, label) :: after)%list ->
  Forall (fun rule => port_matches (fst rule) dest_port = false) before ->
  port_matches port dest_port = true ->
  first_port_comment rules dest_port = label.
Proof.
  intros -> Hb Hm. induction Hb as [|[p l] before Hp Hb IH]; simpl.
  - now rewrite Hm.
  - simpl in Hp. now rewrite Hp.
Qed.

Lemma first_port_comment_no_match (rules : list (Z * string)) (dest_port : option string) :
  Forall (fun rule => port_matches (fst rule) dest_port = false) rules ->
  first_port_comment rules dest_port = "".
Proof.
  induction 1 as [|[p l] rules Hp Hr IH]; simpl; [reflexivity|].
  simpl in Hp. now rewrite Hp.
Qed.

(* ===================================================================== *)
(** * Comment precedence *)
(* ===================================================================== *)

(** C3, as stated, fails: with case-insensitive comparison alone, the
    service " unknown" differs from "unknown", yet the row is treated as
    having two unknown services and receives the port comment SMTP. *)
Lemma comment_precedence_case_only_counterexample :
  ~ (forall r : row,
        PyStr.lower (or_empty (get r "src_service")) <> "unknown"
        \/ PyStr.lower (or_empty (get r "dest_service")) <> "unknown" ->
        get (enrich_row_with_comment r) "COMMENTO" = Some "skip shared services").
Proof.
  intros H. specialize (H padded_unknown_row).
  assert (Hc : get (enrich_row_with_comment padded_unknown_row) "COMMENTO" = Some "SMTP")
    by (vm_compute; reflexivity).
  rewrite Hc in H. discriminate H. left. vm_compute. congruence.
Qed.

(** C3, amended.  A service counts as known when it differs from
    "unknown" after trimming and case folding.  If either service is
    known, [enrich_row_with_comment] sets COMMENTO to "skip shared
    services" whatever the destination port; if both are unknown, the
    label of the first rule of the port table that matches wins (the row
    is unchanged when none matches), so that destination port 8080
    yields Proxy; and a port matches only as a complete number, never
    inside a longer one, so that "8125" does not match rule 25. *)
Theorem comment_precedence (r : row) :
  (norm_field r "src_service" <> "unknown" \/ norm_field r "dest_service" <> "unknown" ->
     enrich_row_with_comment r = setitem r "COMMENTO" "skip shared services")
  /\ (norm_field r "src_service" = "unknown" -> norm_field r "dest_service" = "unknown" ->
      (forall before port label after,
          PORT_COMMENTS = (before ++ (port, label) :: after)%list ->
          Forall (fun rule => port_matches (fst rule) (get r "dest_port") = false) before ->
          port_matches port (get r "dest_port") = true ->
          enrich_row_with_comment r = setitem r "COMMENTO" label)
      /\ (Forall (fun rule => port_matches (fst rule) (get r "dest_port") = false)
                 PORT_COMMENTS ->
          enrich_row_with_comment r = r)
      /\ (get r "dest_port" = Some "8080" ->
          enrich_row_with_comment r = setitem r "COMMENTO" "Proxy"))
  /\ port_matches 25 (Some "8125") = false
  /\ (forall target_port port_value,
         port_matches target_port port_value = true <->
         exists pre post,
           or_empty port_value = pre ++ PyStr.str_of_Z target_port ++ post
           /\ ends_clean pre /\ begins_clean post).
Proof.
  split; [|split; [|split]].
  - intros H. unfold enrich_row_with_comment.
    assert (Hb : negb (String.eqb (norm_field r "src_service") "unknown")
                 || negb (String.eqb (norm_field r "dest_service") "unknown") = true).
    { apply orb_true_iff. destruct H as [H|H]; [left|right];
        apply negb_true_iff, String.eqb_neq; exact H. }
    rewrite Hb. reflexivity.
  - intros Hs Hd. unfold enrich_row_with_comment. rewrite Hs, Hd. simpl negb. simpl orb.
    split; [|split].
    + intros before port label after E Hb Hm.
      rewrite (first_port_comment_first_match _ _ _ _ _ _ E Hb Hm).
      assert (Hl : In (port, label) PORT_COMMENTS) by (rewrite E; apply in_elt).
      simpl in Hl.
      repeat (destruct Hl as [Hl|Hl]; [injection Hl as <- <-; reflexivity|]).
      contradiction.
    + intros Hn. rewrite (first_port_comment_no_match _ _ Hn). reflexivity.
    + intros ->. reflexivity.
  - reflexivity.
  - apply port_matches_spec.
Qed.

Lemma comment_precedence_witness :
  enrich_row_with_comment shared_service_row
  = setitem shared_service_row "COMMENTO" "skip shared services".
Proof.
  apply (proj1 (comment_precedence shared_service_row)).
  left. vm_compute. congruence.
Defined.

(* ===================================================================== *)
(** * The service index *)
(* ===================================================================== *)

Section ServiceIndex.
Implicit Types (idx : gmap string string) (sm : service_map).

Lemma index_service_ips_app svc ips1 ips2 idx :
  index_service_ips svc (ips1 ++ ips2)%list idx
  = index_service_ips svc ips2 (index_service_ips svc ips1 idx).
Proof. unfold index_service_ips. apply fold_left_app. Qed.

(** A key the IPs of a service do not trim to keeps its value. *)
Lemma index_service_ips_other svc ips idx k :
  Forall (fun ip => PyStr.strip ip <> k) ips ->
  index_service_ips svc ips idx !! k = idx !! k.
Proof.
  intros H. revert idx. induction H as [|ip ips Hip _ IH]; intros idx; simpl.
  - reflexivity.
  - unfold index_service_ips in *. simpl. rewrite IH. now apply lookup_insert_ne.
Qed.

(** The last IP that trims to a key decides its value. *)
Lemma index_service_ips_last svc ips1 ip ips2 idx :
  Forall (fun ip' => PyStr.strip ip' <> PyStr.strip ip) ips2 ->
  index_service_ips svc (ips1 ++ ip :: ips2)%list idx !! PyStr.strip ip = Some svc.
Proof.
  intros H. rewrite index_service_ips_app.
  change (ip :: ips2) with ([ip] ++ ips2)%list. rewrite index_service_ips_app.
  rewrite (index_service_ips_other _ _ _ _ H). simpl. apply lookup_insert_eq.
Qed.

(** Where a value of the index comes from. *)
Lemma index_service_ips_lookup svc ips idx k v :
  index_service_ips svc ips idx !! k = Some v ->
  idx !! k = Some v \/ (v = svc /\ exists ip, In ip ips /\ k = PyStr.strip ip).
Proof.
  revert idx. induction ips as [|ip ips IH]; intros idx; simpl; [auto|].
  unfold index_service_ips in *. simpl. intros H. apply IH in H as [H|(-> & ip' & Hin & ->)].
  - destruct (decide (PyStr.strip ip = k)) as [<-|Hne].
    + rewrite lookup_insert_eq in H. injection H as <-. right. eauto.
    + rewrite lookup_insert_ne in H by exact Hne. auto.
  - right. eauto.
Qed.

Lemma build_from_app sm1 sm2 idx :
  build_from (sm1 ++ sm2)%list idx = build_from sm2 (build_from sm1 idx).
Proof. unfold build_from. apply fold_left_app. Qed.

Lemma build_from_other sm idx k :
  Forall (fun e => Forall (fun ip => PyStr.strip ip <> k) (snd e)) sm ->
  build_from sm idx !! k = idx !! k.
Proof.
  intros H. revert idx. induction H as [|[svc ips] sm He _ IH]; intros idx; simpl.
  - reflexivity.
  - unfold build_from in *. simpl. rewrite IH. now apply index_service_ips_other.
Qed.

Lemma build_from_lookup sm idx k v :
  build_from sm idx !! k = Some v ->
  idx !! k = Some v
  \/ exists ips ip, In (v, ips) sm /\ In ip ips /\ k = PyStr.strip ip.
Proof.
  revert idx. induction sm as [|[svc ips] sm IH]; intros idx; simpl; [auto|].
  unfold build_from in *. simpl. intros H.
  apply IH in H as [H|(ips' & ip & Hin & Hip & ->)].
  - apply index_service_ips_lookup in H as [H|(-> & ip & Hin & ->)]; [auto|].
    right. exists ips, ip. auto.
  - right. exists ips', ip. auto.
Qed.

(** Every key of the index is the trimmed form of an IP string that
    the ServiceMap lists under the service the key maps to. *)
Lemma service_index_key_origin sm k v :
  build_ip_to_service_index sm !! k = Some v ->
  exists ips ip, In (v, ips) sm /\ In ip ips /\ k = PyStr.strip ip.
Proof.
  intros H. apply (build_from_lookup sm ∅) in H as [H|H]; [|exact H].
  rewrite lookup_empty in H. discriminate.
Qed.

(** Last write wins: the last IP string that trims to a key gives the
    key its service. *)
Lemma service_index_last_write sm1 svc ips1 ip ips2 sm2 :
  Forall (fun ip' => PyStr.strip ip' <> PyStr.strip ip) ips2 ->
  Forall (fun e => Forall (fun ip' => PyStr.strip ip' <> PyStr.strip ip) (snd e)) sm2 ->
  build_ip_to_service_index (sm1 ++ (svc, ips1 ++ ip :: ips2) :: sm2)%list
    !! PyStr.strip ip = Some svc.
Proof.
  intros H2 Hs. change (build_ip_to_service_index ?m) with (build_from m ∅).
  rewrite build_from_app.
  change ((svc, (ips1 ++ ip :: ips2)%list) :: sm2)
    with ([(svc, (ips1 ++ ip :: ips2)%list)] ++ sm2)%list.
  rewrite build_from_app, (build_from_other _ _ _ Hs). simpl.
  now apply index_service_ips_last.
Qed.
End ServiceIndex.

(** The rows the loader keeps: every value of the loaded table passed
    the validity test and is already trimmed. *)
Lemma add_unique_values (P : string -> Prop) k v d :
  P v ->
  Forall (fun e => Forall P (snd e)) d ->
  Forall (fun e => Forall P (snd e)) (add_unique k v d).
Proof.
  intros Hv H. induction H as [|[k' vs] d He Hd IH]; simpl.
  - repeat constructor. exact Hv.
  - destruct (String.eqb k k'); constructor; simpl in *; auto.
    destruct (existsb (String.eqb v) vs); [exact He|].
    apply Forall_app. split; [exact He | repeat constructor; exact Hv].
Qed.

Lemma cell_text_trimmed ws r c : PyStr.strip (cell_text ws r c) = cell_text ws r c.
Proof. unfold cell_text. apply strip_idem. Qed.

Lemma load_sheet_rows_values ws col_name col_value valid :
  Forall (fun e => Forall (fun v => valid v = true /\ PyStr.strip v = v) (snd e))
         (load_sheet_rows ws col_name col_value valid).
Proof.
  unfold load_sheet_rows.
  generalize (seq 2 (max_row ws - 1)).
  assert (H0 : Forall (fun e : string * list string =>
                         Forall (fun v => valid v = true /\ PyStr.strip v = v) (snd e)) [])
    by constructor.
  revert H0. generalize (@nil (string * list string)) as d.
  intros d Hd l. revert d Hd. induction l as [|r l IH]; intros d Hd; simpl; [exact Hd|].
  apply IH.
  destruct (negb (PyStr.truthy (cell_text ws r col_name))
            || negb (PyStr.truthy (cell_text ws r col_value))); [exact Hd|].
  destruct (valid (cell_text ws r col_value)) eqn:Hv; simpl; [|exact Hd].
  apply add_unique_values; [|exact Hd].
  split; [exact Hv | apply cell_text_trimmed].
Qed.

(** C9, as stated, fails: [build_ip_to_service_index] validates nothing,
    so a ServiceMap entry that is no IPv4 literal becomes a key. *)
Lemma service_index_keys_counterexample :
  ~ (forall (sm : service_map) (k : string),
        is_Some (build_ip_to_service_index sm !! k) ->
        is_Some (ipaddress.IPv4Address k)).
Proof.
  intros H. specialize (H unvalidated_service_map "not-an-ip").
  assert (Hk : is_Some (build_ip_to_service_index unvalidated_service_map !! "not-an-ip"))
    by (vm_compute; eauto).
  apply H in Hk. vm_compute in Hk. destruct Hk as [x Hx]. discriminate.
Qed.

(** C9, amended.  Every key of the index is the trimmed form of an IP
    string that the ServiceMap lists under the service the key maps to;
    hence every key parses as an IPv4 address whenever every IP string
    of the ServiceMap does once trimmed, and this is the case for every
    ServiceMap the loader returns, which keeps validated entries only. *)
Theorem service_index_keys (sm : service_map) :
  (forall k v, build_ip_to_service_index sm !! k = Some v ->
               exists ips ip, In (v, ips) sm /\ In ip ips /\ k = PyStr.strip ip)
  /\ ((forall svc ips ip, In (svc, ips) sm -> In ip ips ->
                          is_Some (ipaddress.IPv4Address (PyStr.strip ip))) ->
      forall k, is_Some (build_ip_to_service_index sm !! k) ->
                is_Some (ipaddress.IPv4Address k))
  /\ (forall IPv6Network_of_string wb lm,
         load_mappings_from_workbook IPv6Network_of_string wb = inr (sm, lm) ->
         forall k, is_Some (build_ip_to_service_index sm !! k) ->
                   is_Some (ipaddress.IPv4Address k)).
Proof.
  split; [|split].
  - intros k v. apply service_index_key_origin.
  - intros Hvalid k [v Hk].
    apply service_index_key_origin in Hk as (ips & ip & Hin & Hip & ->). eauto.
  - intros p6 wb lm Hload k [v Hk].
    apply service_index_key_origin in Hk as (ips & ip & Hin & Hip & ->).
    unfold load_mappings_from_workbook in Hload.
    repeat match type of Hload with
           | match ?x with _ => _ end = _ => destruct x; try discriminate
           end.
    injection Hload as <- _.
    match type of Hin with
    | In _ (load_sheet_rows ?ws ?a ?b ?valid) =>
        pose proof (load_sheet_rows_values ws a b valid) as Hall
    end.
    rewrite Forall_forall in Hall. apply list_elem_of_In, Hall in Hin. simpl in Hin.
    rewrite Forall_forall in Hin. apply list_elem_of_In, Hin in Hip as [Hv ->].
    apply bool_decide_eq_true in Hv. exact Hv.
Qed.

Lemma service_index_keys_witness :
  is_Some (build_ip_to_service_index [("KMS", [" 10.11.12.13 "])] !! "10.11.12.13")
  /\ is_Some (ipaddress.IPv4Address "10.11.12.13").
Proof.
  assert (Hk : is_Some (build_ip_to_service_index [("KMS", [" 10.11.12.13 "])]
                          !! "10.11.12.13")) by (vm_compute; eauto).
  split; [exact Hk|].
  apply (proj1 (proj2 (service_index_keys [("KMS", [" 10.11.12.13 "])])));
    [|exact Hk].
  intros svc ips ip [E|[]] Hip. injection E as <- <-.
  destruct Hip as [<-|[]]. vm_compute. eauto.
Defined.

Lemma get_setitem_eq (r : row) col v : get (setitem r col v) col = Some v.
Proof. unfold get, setitem. now rewrite lookup_insert_eq. Qed.

Lemma get_setitem_ne (r : row) col col' v :
  col <> col' -> get (setitem r col v) col' = get r col'.
Proof. intros H. unfold get, setitem. now rewrite lookup_insert_ne. Qed.

(** C10, as stated, fails: when two services list an address that trims
    to the empty string, the empty key maps to the later one only. *)
Lemma empty_address_counterexample :
  ~ (forall (sm : service_map) svc ips ip,
        In (svc, ips) sm -> In ip ips -> PyStr.strip ip = "" ->
        build_ip_to_service_index sm !! "" = Some svc).
Proof.
  intros H.
  specialize (H two_blank_service_map "KMS" [" "] " ").
  assert (Hl : build_ip_to_service_index two_blank_service_map !! "" = Some "Proxy Italia")
    by (vm_compute; reflexivity).
  rewrite Hl in H. discriminate H; [left | left |]; reflexivity.
Qed.

(** C10, amended.  If the ServiceMap has an entry whose IP string trims
    to the empty string, the index maps the empty string to the service
    of the last such entry in iteration order (to that service, when no
    later entry trims to the empty string), and [enrich_row_with_services]
    then sets src_service (dest_service) to that service, not to
    "unknown", on every row whose src_addr (dest_addr) is missing, empty
    or white space only. *)
Theorem empty_address_edge_case
    (sm1 : service_map) (svc : string) (ips1 : list string) (ip : string)
    (ips2 : list string) (sm2 : service_map) :
  let idx := build_ip_to_service_index (sm1 ++ (svc, ips1 ++ ip :: ips2) :: sm2)%list in
  PyStr.strip ip = "" ->
  Forall (fun ip' => PyStr.strip ip' <> "") ips2 ->
  Forall (fun e => Forall (fun ip' => PyStr.strip ip' <> "") (snd e)) sm2 ->
  idx !! "" = Some svc
  /\ forall r : row,
      (all_space (or_empty (get r "src_addr")) = true ->
       get (enrich_row_with_services r idx) "src_service" = Some svc)
      /\ (all_space (or_empty (get r "dest_addr")) = true ->
          get (enrich_row_with_services r idx) "dest_service" = Some svc).
Proof.
  intros idx Hip H2 Hs.
  assert (Hidx : idx !! "" = Some svc).
  { subst idx. rewrite <- Hip. apply service_index_last_write; rewrite Hip; assumption. }
  split; [exact Hidx|].
  intros r. unfold enrich_row_with_services. split; intros Hsp.
  - rewrite get_setitem_ne by discriminate. rewrite get_setitem_eq.
    rewrite (strip_all_space _ Hsp), Hidx. reflexivity.
  - rewrite get_setitem_eq.
    rewrite (strip_all_space _ Hsp), Hidx. reflexivity.
Qed.

Lemma empty_address_edge_case_witness :
  build_ip_to_service_index one_blank_service_map !! "" = Some "KMS"
  /\ get (enrich_row_with_services addressless_row
            (build_ip_to_service_index one_blank_service_map)) "src_service" = Some "KMS"
  /\ get (enrich_row_with_services addressless_row
            (build_ip_to_service_index one_blank_service_map)) "dest_service" = Some "KMS".
Proof.
  destruct (empty_address_edge_case [] "KMS" ["10.11.12.13"] "  " []
              [("Flexera", ["10.11.12.14"])]) as [H1 H2].
  - reflexivity.
  - constructor.
  - repeat constructor. vm_compute. congruence.
  - split; [exact H1|]. destruct (H2 addressless_row) as [Hs Hd].
    split; [apply Hs | apply Hd]; reflexivity.
Defined.

(* ===================================================================== *)
(** * The location index and longest-prefix match *)
(* ===================================================================== *)

Section SortDesc.
Context {A : Type} (key : A -> Z).

Let desc (a b : A) : Prop := key b <= key a.

Lemma insert_desc_In x y l : In y (insert_desc key x l) <-> y = x \/ In y l.
Proof.
  induction l as [|z l IH]; simpl; [intuition|].
  destruct (key z <? key x); simpl; [intuition|].
  rewrite IH. intuition.
Qed.

Lemma insert_desc_sorted x l :
  StronglySorted desc l -> StronglySorted desc (insert_desc key x l).
Proof.
  induction 1 as [|z l Hs IH Hz]; simpl.
  - repeat constructor.
  - destruct (key z <? key x) eqn:Hlt.
    + apply Z.ltb_lt in Hlt. constructor; [constructor; assumption|].
      constructor; [unfold desc; lia|].
      rewrite Forall_forall in *. intros y Hy. specialize (Hz y Hy).
      unfold desc in *. lia.
    + apply Z.ltb_ge in Hlt. constructor; [exact IH|].
      rewrite Forall_forall in *. intros y Hy.
      apply list_elem_of_In, insert_desc_In in Hy as [->|Hy]; [exact Hlt|].
      apply Hz, list_elem_of_In, Hy.
Qed.

Lemma insert_desc_perm x l : Permutation (insert_desc key x l) (x :: l).
Proof.
  induction l as [|z l IH]; simpl; [reflexivity|].
  destruct (key z <? key x); [reflexivity|].
  rewrite IH. apply perm_swap.
Qed.

Lemma fold_insert_sorted l acc :
  StronglySorted desc acc ->
  StronglySorted desc (fold_left (fun acc x => insert_desc key x acc) l acc).
Proof.
  revert acc. induction l as [|x l IH]; intros acc H; simpl; [exact H|].
  apply IH, insert_desc_sorted, H.
Qed.

Lemma fold_insert_perm l acc :
  Permutation (fold_left (fun acc x => insert_desc key x acc) l acc) (acc ++ l)%list.
Proof.
  revert acc. induction l as [|x l IH]; intros acc; simpl.
  - now rewrite app_nil_r.
  - rewrite IH, insert_desc_perm. apply Permutation_middle.
Qed.

(** The sort orders by descending key and keeps the elements. *)
Lemma sort_desc_sorted l : StronglySorted desc (sort_desc key l).
Proof. apply fold_insert_sorted. constructor. Qed.

Lemma sort_desc_perm l : Permutation (sort_desc key l) l.
Proof. apply (fold_insert_perm l []). Qed.
Lemma filter_key_none l k :
  Forall (fun y => key y <> k) l -> List.filter (fun y => key y =? k) l = [].
Proof.
  induction 1 as [|y l Hy _ IH]; simpl; [reflexivity|].
  apply Z.eqb_neq in Hy. now rewrite Hy.
Qed.

Lemma insert_desc_same_key x l k :
  StronglySorted desc l ->
  List.filter (fun y => key y =? k) (insert_desc key x l)
  = (List.filter (fun y => key y =? k) l ++ if key x =? k then [x] else [])%list.
Proof.
  induction 1 as [|z l Hs IH Hz]; simpl.
  - destruct (key x =? k); reflexivity.
  - destruct (key z <? key x) eqn:Hlt.
    + apply Z.ltb_lt in Hlt.
      destruct (Z.eqb_spec (key x) k) as [Hx|Hx].
      * assert (Hnone : List.filter (fun y => key y =? k) (z :: l) = []).
        { apply filter_key_none. constructor; [lia|].
          rewrite Forall_forall in *. intros y Hy. specialize (Hz y Hy).
          unfold desc in Hz. lia. }
        simpl in Hnone. simpl. rewrite Hnone.
        apply Z.eqb_eq in Hx. rewrite Hx. reflexivity.
      * rewrite app_nil_r. simpl. apply Z.eqb_neq in Hx. now rewrite Hx.
    + simpl. rewrite IH. destruct (key z =? k); reflexivity.
Qed.

(** The sort is stable: the elements of one key keep their order. *)
Lemma sort_desc_stable l k :
  List.filter (fun y => key y =? k) (sort_desc key l)
  = List.filter (fun y => key y =? k) l.
Proof.
  unfold sort_desc.
  assert (H : forall acc,
             StronglySorted desc acc ->
             List.filter (fun y => key y =? k)
                         (fold_left (fun acc x => insert_desc key x acc) l acc)
             = (List.filter (fun y => key y =? k) acc
                ++ List.filter (fun y => key y =? k) l)%list).
  { induction l as [|x l IH]; intros acc Hacc; simpl.
    - now rewrite app_nil_r.
    - rewrite IH by now apply insert_desc_sorted.
      rewrite insert_desc_same_key by exact Hacc.
      rewrite <- app_assoc. destruct (key x =? k); reflexivity. }
  apply (H []). constructor.
Qed.
End SortDesc.

Section IndexEntries.
Variable IPv6Network_of_string : string -> option (Z * Z).

Lemma compile_cidrs_In location cidrs compiled network loc :
  In (network, loc) (compile_cidrs IPv6Network_of_string location cidrs compiled) <->
  In (network, loc) compiled
  \/ (loc = location
      /\ exists cidr, In cidr cidrs
                      /\ ip_network IPv6Network_of_string (PyStr.strip cidr) = Some network).
Proof.
  revert compiled. induction cidrs as [|cidr cidrs IH]; intros compiled; simpl.
  - split; [auto | intros [H|(_ & c & [] & _)]; exact H].
  - unfold compile_cidrs in *. simpl. rewrite IH.
    destruct (ip_network IPv6Network_of_string (PyStr.strip cidr)) as [n|] eqn:Hn.
    + rewrite in_app_iff. simpl. split.
      * intros [[H|[H|[]]]|(-> & c & Hc & Hp)]; [auto| |right; eauto].
        injection H as -> ->. right. eauto.
      * intros [H|(-> & c & [<-|Hc] & Hp)]; [auto| |right; eauto].
        rewrite Hn in Hp. injection Hp as ->. auto.
    + split.
      * intros [H|(-> & c & Hc & Hp)]; [auto | right; eauto].
      * intros [H|(-> & c & [<-|Hc] & Hp)]; [auto| |right; eauto].
        rewrite Hn in Hp. discriminate.
Qed.

Lemma compile_from_In (lm : location_map) compiled network loc :
  In (network, loc)
     (fold_left (fun acc '(location, cidrs) =>
                   compile_cidrs IPv6Network_of_string location cidrs acc) lm compiled) <->
  In (network, loc) compiled
  \/ exists cidrs cidr,
      In (loc, cidrs) lm /\ In cidr cidrs
      /\ ip_network IPv6Network_of_string (PyStr.strip cidr) = Some network.
Proof.
  revert compiled. induction lm as [|[location cidrs] lm IH]; intros compiled; simpl.
  - split; [auto | intros [H|(cs & c & [] & _)]; exact H].
  - rewrite IH, compile_cidrs_In. split.
    + intros [[H|(-> & c & Hc & Hp)]|(cs & c & Hin & Hc & Hp)];
        [auto | right; exists cidrs, c; auto | right; exists cs, c; auto].
    + intros [H|(cs & c & [E|Hin] & Hc & Hp)]; [auto | | right; eauto].
      injection E as -> ->. left. right. eauto.
Qed.

(** The entries of the index are the CIDRs of the LocationMap that
    parse, each paired with its location. *)
Lemma build_subnet_index_In (lm : location_map) network loc :
  In (network, loc) (build_subnet_index IPv6Network_of_string lm) <->
  exists cidrs cidr,
    In (loc, cidrs) lm /\ In cidr cidrs
    /\ ip_network IPv6Network_of_string (PyStr.strip cidr) = Some network.
Proof.
  unfold build_subnet_index.
  rewrite <- !list_elem_of_In, sort_desc_perm, list_elem_of_In.
  unfold compile_subnets. rewrite compile_from_In. simpl. tauto.
Qed.
End IndexEntries.

(** The compiled index is ordered by descending prefix length. *)
Lemma build_subnet_index_sorted IPv6Network_of_string (lm : location_map) :
  StronglySorted by_prefix_desc (build_subnet_index IPv6Network_of_string lm).
Proof. apply (sort_desc_sorted (fun item => ipaddress.prefixlen (fst item))). Qed.

(** On a list ordered by descending prefix length, the scan returns the
    location of an entry that contains the address and is strictly more
    specific than every other entry containing it. *)
Lemma first_match_longest (x : Z) (index : list (ipaddress.network * string)) :
  StronglySorted by_prefix_desc index ->
  forall (i : nat) network location,
    index !! i = Some (network, location) ->
    ipaddress.contains network x = true ->
    (forall j network' location',
        j <> i -> index !! j = Some (network', location') ->
        ipaddress.contains network' x = true ->
        ipaddress.prefixlen network' < ipaddress.prefixlen network) ->
    first_match x index = Some location.
Proof.
  induction 1 as [|[n0 l0] rest Hs IH H0]; intros i network location Hi Hc Hother.
  - destruct i; discriminate.
  - simpl. destruct i as [|i]; simpl in Hi.
    + injection Hi as -> ->. now rewrite Hc.
    + destruct (ipaddress.contains n0 x) eqn:Hc0.
      * exfalso.
        assert (Hlt := Hother 0%nat n0 l0 ltac:(discriminate) eq_refl Hc0).
        rewrite Forall_forall in H0.
        assert (Hle : by_prefix_desc (n0, l0) (network, location)).
        { apply H0. apply list_elem_of_lookup. eauto. }
        unfold by_prefix_desc in Hle. simpl in Hle. lia.
      * apply (IH i network location Hi Hc).
        intros j n' l' Hj Hl Hc'. apply (Hother (S j) n' l'); auto.
Qed.

Lemma IPv4Address_nonempty (s : string) (x : Z) :
  ipaddress.IPv4Address s = Some x -> PyStr.truthy s = true.
Proof.
  destruct s; [|reflexivity]. vm_compute. discriminate.
Qed.

(** C1.  Longest-prefix match: for every IPv4 address x (given by a
    text that parses once trimmed) and every LocationMap, if some entry
    of the compiled index contains x and every other entry of the index
    that contains x has a strictly shorter prefix, then
    [find_location_for_ip] returns the location paired with that
    longest-prefix network. *)
Theorem longest_prefix_match
    (IPv6Network_of_string : string -> option (Z * Z))
    (lm : location_map) (ip_str : string) (x : Z)
    (i : nat) (network : ipaddress.network) (location : string) :
  let index := build_subnet_index IPv6Network_of_string lm in
  ipaddress.IPv4Address (PyStr.strip ip_str) = Some x ->
  index !! i = Some (network, location) ->
  ipaddress.contains network x = true ->
  (forall j network' location',
      j <> i -> index !! j = Some (network', location') ->
      ipaddress.contains network' x = true ->
      ipaddress.prefixlen network' < ipaddress.prefixlen network) ->
  find_location_for_ip (Some ip_str) index = Some location.
Proof.
  intros index Hx Hi Hc Hother. unfold find_location_for_ip. simpl or_empty.
  rewrite (IPv4Address_nonempty _ _ Hx), Hx. simpl.
  apply (first_match_longest x index (build_subnet_index_sorted _ lm) i network location);
    assumption.
Qed.

Lemma longest_prefix_match_witness :
  find_location_for_ip (Some " 10.1.2.77 ")
    (build_subnet_index (fun _ => None) nested_locations) = Some "LAN".
Proof.
  apply (longest_prefix_match (fun _ => None) nested_locations " 10.1.2.77 "
           167838285 0 (ipaddress.IPv4Network 167838208 24) "LAN").
  - reflexivity.
  - reflexivity.
  - reflexivity.
  - intros [|[|[|j]]] n' l' Hj Hl Hc; try congruence.
    + vm_compute in Hl. injection Hl as <- <-. simpl. lia.
    + vm_compute in Hl. injection Hl as <- <-. simpl. lia.
    + vm_compute in Hl. discriminate.
Defined.

(* ===================================================================== *)
(** * Rules for the computations of the driver *)
(* ===================================================================== *)

Section Rules.
Context {A B : Type}.
Implicit Types (Q : A -> world -> Prop) (E : exn -> world -> Prop).

Lemma wp_ret (a : A) Q E w : Q a w -> wp (ret a) Q E w.
Proof. exact id. Qed.

Lemma wp_raise (e : exn) Q E w : E e w -> wp (@raise A e) Q E w.
Proof. exact id. Qed.

Lemma wp_bind (c : M A) (k : A -> M B) (Q' : B -> world -> Prop) E w :
  wp c (fun a => wp (k a) Q' E) E w -> wp (bind c k) Q' E w.
Proof. unfold wp, bind. destruct (c w) as [[e|a] w']; exact id. Qed.

Lemma wp_mono (c : M A) Q Q' E E' w :
  (forall a w', Q a w' -> Q' a w') ->
  (forall e w', E e w' -> E' e w') ->
  wp c Q E w -> wp c Q' E' w.
Proof. unfold wp. intros HQ HE. destruct (c w) as [[e|a] w']; auto. Qed.

(** Sequencing a computation that keeps an invariant. *)
Lemma wp_bind_keeps (I : world -> Prop) (c : M A) (k : A -> M B)
    (Q' : B -> world -> Prop) E w :
  keeps I c -> I w ->
  (forall e w', I w' -> E e w') ->
  (forall a w', I w' -> wp (k a) Q' E w') ->
  wp (bind c k) Q' E w.
Proof.
  intros Hc HI HE Hk. apply wp_bind.
  apply (wp_mono c (fun _ => I) _ (fun _ => I) E);
    [intros a w' H; apply Hk, H | intros e w' H; apply HE, H | apply Hc, HI].
Qed.

Lemma keeps_ret (I : world -> Prop) (a : A) : keeps I (ret a).
Proof. intros w H. exact H. Qed.

Lemma keeps_raise (I : world -> Prop) (e : exn) : keeps I (@raise A e).
Proof. intros w H. exact H. Qed.

Lemma keeps_bind (I : world -> Prop) (c : M A) (k : A -> M B) :
  keeps I c -> (forall a, keeps I (k a)) -> keeps I (bind c k).
Proof.
  intros Hc Hk w HI. apply (wp_bind_keeps I c k _ _ w Hc HI); [auto|].
  intros a w' HI'. apply Hk, HI'.
Qed.
End Rules.

Lemma keeps_when (I : world -> Prop) (b : bool) (c : M unit) :
  keeps I c -> keeps I (when b c).
Proof. destruct b; simpl; [auto | intros _; apply keeps_ret]. Qed.

Lemma keeps_for_each {A} (I : world -> Prop) (l : list A) (f : A -> M unit) :
  (forall x, keeps I (f x)) -> keeps I (for_each l f).
Proof.
  intros Hf. induction l as [|x l IH]; simpl; [apply keeps_ret|].
  apply keeps_bind; auto.
Qed.

Section EffectRules.
Variable fault : nat -> option exn.
Variable clock : nat -> Q.

(** A failure point, in general: the injected error, or the effect. *)
Lemma wp_effect ev upd (Q : unit -> world -> Prop) (E : exn -> world -> Prop) w :
  (forall e, fault (w_ticks w) = Some e ->
             E e (World (w_fs w) (w_events w) (S (w_ticks w)) (w_clock w))) ->
  (fault (w_ticks w) = None ->
   Q tt (World (upd (w_fs w)) (w_events w ++ ev) (S (w_ticks w)) (w_clock w))) ->
  wp (effect fault ev upd) Q E w.
Proof.
  intros HE HQ. unfold wp, effect. destruct (fault (w_ticks w)); auto.
Qed.

(** An effect keeps an invariant on files and events that its update
    and its events maintain. *)
Lemma keeps_effect (P : gmap string csv_table -> list event -> Prop) ev upd :
  (forall fs evs, P fs evs -> P (upd fs) (evs ++ ev)%list) ->
  keeps (on P) (effect fault ev upd).
Proof.
  intros H w HI. apply wp_effect; [intros e _ | intros _]; unfold on in *; simpl; auto.
Qed.

Lemma keeps_time_time (P : gmap string csv_table -> list event -> Prop) :
  keeps (on P) (time_time clock).
Proof. intros w HI. exact HI. Qed.

Lemma wp_time_time (Q : Q -> world -> Prop) E w :
  Q (clock (w_clock w)) (World (w_fs w) (w_events w) (w_ticks w) (S (w_clock w))) ->
  wp (time_time clock) Q E w.
Proof. exact id. Qed.

(** Opening a file keeps what an [EvOpen] event maintains. *)
Lemma keeps_open_read (P : gmap string csv_table -> list event -> Prop) path :
  (forall fs evs, P fs evs -> P fs (evs ++ [EvOpen path])%list) ->
  keeps (on P) (open_read fault path).
Proof.
  intros H. unfold open_read. apply keeps_bind.
  - apply keeps_effect. exact H.
  - intros _ w HI. unfold wp. destruct (w_fs w !! path); exact HI.
Qed.
End EffectRules.

(** ** Invariants of the steps before the publication *)

Section Quiet.
Variable IPv6Network_of_string : string -> option (Z * Z).
Variable fault : nat -> option exn.
Variable clock : nat -> Q.
Variable load_workbook : option (string -> exn + workbook).
Variable tmp : string.

(** A property of files and events that logging, opening, reading,
    creating and writing the temporary file and closing it maintain. *)
Variable P : gmap string csv_table -> list event -> Prop.
Hypothesis P_log : forall fs evs l, P fs evs -> P fs (evs ++ [EvLog l])%list.
Hypothesis P_open : forall fs evs p, P fs evs -> P fs (evs ++ [EvOpen p])%list.
Hypothesis P_close : forall fs evs p, P fs evs -> P fs (evs ++ [EvClose p])%list.
Hypothesis P_create :
  forall fs evs, P fs evs -> P (<[tmp := []]> fs) (evs ++ [EvCreateTemp tmp])%list.
Hypothesis P_write :
  forall fs evs record,
    P fs evs ->
    P (<[tmp := (default [] (fs !! tmp) ++ [record])%list]> fs)
      (evs ++ [EvWrite tmp record])%list.

Lemma keeps_log_put l : keeps (on P) (log_put fault l).
Proof. apply keeps_effect. intros fs evs. apply P_log. Qed.

Lemma keeps_read_next : keeps (on P) (read_next fault).
Proof. apply keeps_effect. intros fs evs H. now rewrite app_nil_r. Qed.

Lemma keeps_open p : keeps (on P) (open_read fault p).
Proof. apply keeps_open_read. intros fs evs. apply P_open. Qed.

Lemma keeps_close p : keeps (on P) (close fault p).
Proof. apply keeps_effect. intros fs evs. apply P_close. Qed.

Lemma keeps_create_temp : keeps (on P) (create_temp fault tmp).
Proof. apply keeps_effect. exact P_create. Qed.

Lemma keeps_write_record record : keeps (on P) (write_record fault tmp record).
Proof. apply keeps_effect. intros fs evs. apply P_write. Qed.

Lemma keeps_writerow fieldnames r extras :
  keeps (on P) (writerow fault tmp fieldnames r extras).
Proof.
  unfold writerow. destruct extras; [apply keeps_raise | apply keeps_write_record].
Qed.

Lemma keeps_load_mappings xlsx_path :
  keeps (on P) (load_mappings_from_excel IPv6Network_of_string load_workbook xlsx_path).
Proof.
  unfold load_mappings_from_excel.
  destruct (negb (PyStr.truthy xlsx_path)); [apply keeps_ret|].
  destruct load_workbook as [load|]; [|apply keeps_raise].
  destruct (load xlsx_path) as [e|wb]; [apply keeps_raise|].
  destruct (load_mappings_from_workbook IPv6Network_of_string wb);
    [apply keeps_raise | apply keeps_ret].
Qed.

Lemma keeps_count_rows server_filter wave_filter fieldnames records total :
  keeps (on P) (count_rows fault server_filter wave_filter fieldnames records total).
Proof.
  revert total. induction records as [|record rest IH]; intros total; simpl.
  - apply keeps_ret.
  - apply keeps_bind; [apply keeps_read_next | intros _; apply IH].
Qed.

Section WithProgress.
(** ... and that a progress value maintains as well. *)
Hypothesis P_progress :
  forall fs evs p, P fs evs -> P fs (evs ++ [EvProgress p])%list.

Lemma keeps_progress_set p : keeps (on P) (progress_set fault p).
Proof. apply keeps_effect. intros fs evs. apply P_progress. Qed.

Lemma keeps_report_progress total st :
  keeps (on P) (report_progress fault clock total st).
Proof.
  unfold report_progress.
  apply keeps_bind; [apply keeps_time_time|]. intros now.
  apply keeps_bind.
  { match goal with |- keeps _ (if ?b then _ else _) => destruct b end;
      [apply keeps_bind; [apply keeps_log_put | intros _; apply keeps_ret]
      | apply keeps_ret]. }
  intros step. apply keeps_bind.
  { match goal with |- keeps _ (if ?b then _ else _) => destruct b end;
      [apply keeps_bind; [apply keeps_progress_set | intros _; apply keeps_ret]
      | apply keeps_ret]. }
  intros t1. apply keeps_bind.
  { match goal with |- keeps _ (if ?b then _ else _) => destruct b end;
      [apply keeps_bind; [apply keeps_log_put | intros _; apply keeps_ret]
      | apply keeps_ret]. }
  intros t2. apply keeps_ret.
Qed.

Lemma keeps_process_row server_filter out_fieldnames ip_to_service subnet_index
    total st r extras :
  keeps (on P) (process_row fault clock server_filter out_fieldnames ip_to_service
                            subnet_index tmp total st r extras).
Proof.
  unfold process_row.
  destruct (if nonempty server_filter then _ else _) as [out inb].
  apply keeps_bind; [apply keeps_writerow | intros _; apply keeps_report_progress].
Qed.

Lemma keeps_process_rows server_filter wave_filter fieldnames out_fieldnames
    ip_to_service subnet_index total records st :
  keeps (on P) (process_rows fault clock server_filter wave_filter fieldnames
                             out_fieldnames ip_to_service subnet_index tmp total
                             records st).
Proof.
  revert st. induction records as [|record rest IH]; intros st; simpl.
  - apply keeps_ret.
  - apply keeps_bind; [apply keeps_read_next|]. intros _.
    destruct (included server_filter wave_filter fieldnames record); [|apply IH].
    destruct (dict_row fieldnames record) as [r extras].
    apply keeps_bind; [apply keeps_process_row | intros st'; apply IH].
Qed.

Lemma keeps_transform tmp_random selected_file server_filter wave_filter
    ip_to_service subnet_index src :
  tmp = tmp_path tmp_random selected_file ->
  keeps (on P) (transform fault clock tmp_random selected_file server_filter
                          wave_filter ip_to_service subnet_index src).
Proof.
  intros Htmp. unfold transform. cbv zeta. rewrite <- Htmp.
  apply keeps_bind; [apply keeps_read_next|]. intros _.
  destruct src as [|fieldnames records]; [apply keeps_raise|].
  destruct (nonempty _); [apply keeps_raise|].
  destruct (_ && _); [apply keeps_raise|].
  apply keeps_bind; [apply keeps_write_record|]. intros _.
  apply keeps_bind; [apply keeps_count_rows|]. intros total.
  apply keeps_bind; [apply keeps_log_put|]. intros _.
  apply keeps_bind; [apply keeps_read_next|]. intros _.
  apply keeps_bind; [apply keeps_process_rows|]. intros st.
  apply keeps_bind; [apply keeps_close | intros _; apply keeps_ret].
Qed.
End WithProgress.
End Quiet.

(* ===================================================================== *)
(** * Atomic publication *)
(* ===================================================================== *)

(** The temporary file and the destination are different files of the
    directory of the input. *)
Lemma tmp_path_neq_final_path tmp_random timestamp selected_file :
  tmp_path tmp_random selected_file <> final_path timestamp selected_file.
Proof.
  unfold tmp_path, final_path. intros H.
  apply app_inv_head_string in H. string_app. discriminate.
Qed.

Section Publication.
Variables (fs0 : gmap string csv_table) (tmp final : string).
Hypothesis tmp_final : tmp <> final.

Lemma unpublished_event ev fs evs :
  before_publication tmp ev ->
  unpublished fs0 tmp final fs evs ->
  unpublished fs0 tmp final fs (evs ++ [ev])%list.
Proof.
  intros Hev [He Hf]. split; [|exact Hf].
  apply Forall_app. split; [exact He | repeat constructor; exact Hev].
Qed.

Lemma unpublished_insert ev fs evs table :
  before_publication tmp ev ->
  unpublished fs0 tmp final fs evs ->
  unpublished fs0 tmp final (<[tmp := table]> fs) (evs ++ [ev])%list.
Proof.
  intros Hev [He Hf]. split.
  - apply Forall_app. split; [exact He | repeat constructor; exact Hev].
  - rewrite lookup_insert_ne by exact tmp_final. exact Hf.
Qed.

Lemma unpublished_untouched w :
  on (unpublished fs0 tmp final) w -> untouched_unless_renamed fs0 tmp final w.
Proof. intros [_ H] _. exact H. Qed.

Lemma published_untouched w :
  on (published tmp final) w -> untouched_unless_renamed fs0 tmp final w.
Proof.
  intros (before & after & E & _) Hn. exfalso. apply Hn.
  unfold on in E. rewrite E. apply in_elt.
Qed.

Lemma published_log fs evs l :
  published tmp final fs evs -> published tmp final fs (evs ++ [EvLog l])%list.
Proof.
  intros (before & after & -> & Hb & Ha). exists before, (after ++ [EvLog l])%list.
  split; [now rewrite <- app_assoc|]. split; [exact Hb|].
  apply Forall_app. split; [exact Ha | repeat constructor].
Qed.
End Publication.

Section PublicationRun.
Variable IPv6Network_of_string : string -> option (Z * Z).
Variable fault : nat -> option exn.
Variable clock : nat -> Q.
Variable load_workbook : option (string -> exn + workbook).
Variables timestamp tmp_random : string.
Variables selected_file selected_excel : string.
Variable server_filter : list string.
Variable wave_filter : string.
Variable fs0 : gmap string csv_table.

Let tmp := tmp_path tmp_random selected_file.
Let final := final_path timestamp selected_file.

Let tmp_final : tmp <> final := tmp_path_neq_final_path _ _ _.

Ltac stable :=
  intros;
  first [ apply unpublished_event; [simpl; auto | assumption]
        | apply unpublished_insert; [exact tmp_final | simpl; auto | assumption]
        | apply published_log; assumption ].

Ltac quiet :=
  first [ apply keeps_log_put | apply keeps_open | apply keeps_load_mappings
        | apply keeps_time_time | apply keeps_create_temp
        | apply keeps_progress_set
        | apply keeps_transform with (tmp := tmp) ];
  first [ reflexivity | stable ].

Ltac keep_unpublished :=
  apply (wp_bind_keeps (on (unpublished fs0 tmp final)));
  [ | assumption | intros ? ? ?; apply unpublished_untouched; assumption | intros ? ? ? ].

(** The whole run: it ends published, or with an error that left the
    destination untouched unless the rename had happened. *)
Lemma run_publication w :
  on (unpublished fs0 tmp final) w ->
  wp (run_user_python_code IPv6Network_of_string fault clock load_workbook
        timestamp tmp_random selected_file selected_excel server_filter wave_filter)
     (fun _ => on (published tmp final))
     (fun _ => untouched_unless_renamed fs0 tmp final) w.
Proof.
  intros Hw. unfold run_user_python_code.
  destruct (negb (PyStr.truthy selected_file));
    [apply wp_raise, unpublished_untouched, Hw|].
  destruct (negb (PyStr.truthy selected_excel));
    [apply wp_raise, unpublished_untouched, Hw|].
  keep_unpublished; [quiet|].
  keep_unpublished; [quiet|]. destruct a0 as [srv_map loc_map].
  keep_unpublished; [quiet|].
  keep_unpublished; [quiet|].
  keep_unpublished; [quiet|].
  keep_unpublished; [quiet|].
  keep_unpublished; [apply keeps_when; quiet|].
  keep_unpublished; [apply keeps_when; quiet|].
  keep_unpublished; [quiet|].
  keep_unpublished; [quiet|].
  keep_unpublished; [quiet|].
  keep_unpublished; [quiet|].
  keep_unpublished; [quiet|].
  keep_unpublished; [quiet|].
  apply wp_bind, wp_effect.
  - intros e _. apply unpublished_untouched. assumption.
  - intros _.
    match goal with
    | H : on (unpublished _ _ _) ?w0 |- wp ?c _ _ ?w1 =>
        assert (Hp : on (published tmp final) w1)
          by (destruct H as [He Hf]; exists (w_events w0), []; simpl;
              repeat split; [exact He | constructor]);
        apply (wp_mono c (fun _ => on (published tmp final)) _
                         (fun _ => on (published tmp final)) _ w1)
    end.
    + auto.
    + intros e w2 Hp2. apply published_untouched, Hp2.
    + assert (Hk : forall l, keeps (on (published tmp final)) (log_put fault l))
        by (intros l; apply keeps_effect; stable).
      refine (keeps_bind _ _ _ (Hk _) _ _ Hp). intros _.
      apply keeps_bind; [apply Hk|]. intros _.
      apply keeps_when, keeps_bind; [apply Hk|]. intros _.
      apply keeps_for_each. intros srv. apply Hk.
Qed.
End PublicationRun.

(** C5.  Atomic publication: whatever failure is injected and wherever,
    if [run_user_python_code] ends with an error raised before the
    rename (no rename among its events), the file at the destination
    path is what it was before the run, absent if it was absent; and on
    a successful run the rename of the temporary file onto the
    destination is the last file-system step: before it the run creates
    and writes the temporary file only, after it it only logs. *)
Theorem atomic_publication
    (IPv6Network_of_string : string -> option (Z * Z))
    (fault : nat -> option exn) (clock : nat -> Q)
    (load_workbook : option (string -> exn + workbook))
    (timestamp tmp_random selected_file selected_excel : string)
    (server_filter : list string) (wave_filter : string)
    (fs : gmap string csv_table) :
  let res := run_user_python_code IPv6Network_of_string fault clock load_workbook
               timestamp tmp_random selected_file selected_excel
               server_filter wave_filter (init_world fs) in
  let tmp := tmp_path tmp_random selected_file in
  let final := final_path timestamp selected_file in
  (forall e, fst res = inl e ->
             ~ In (EvReplace tmp final) (w_events (snd res)) ->
             w_fs (snd res) !! final = fs !! final)
  /\ (fst res = inr tt ->
      exists before after,
        w_events (snd res) = (before ++ EvReplace tmp final :: after)%list
        /\ Forall (before_publication tmp) before
        /\ Forall is_log after).
Proof.
  intros res tmp final.
  assert (H0 : on (unpublished fs tmp final) (init_world fs))
    by (split; [constructor | reflexivity]).
  pose proof (run_publication IPv6Network_of_string fault clock load_workbook
                timestamp tmp_random selected_file selected_excel
                server_filter wave_filter fs (init_world fs) H0) as H.
  unfold wp in H. fold res in H. destruct res as [[e|[]] w']; simpl; split.
  - intros e' _ Hn. apply H, Hn.
  - discriminate.
  - discriminate.
  - intros _. exact H.
Qed.

(** A run that fails while the first data row is read: the earlier
    output at the destination path is still there. *)
Lemma atomic_publication_witness :
  fst (run_user_python_code no_ipv6
         (fault_at 11 (OSError "No space left on device")) tick_clock
         scenario_loader "2026-11-03_10-00-00" "k3x9q_ab"
         "data/flows.csv" "mappings.xlsx" [] "Wave4"
         (init_world scenario_files))
  = inl (OSError "No space left on device")
  /\ w_fs (snd (run_user_python_code no_ipv6
                  (fault_at 11 (OSError "No space left on device")) tick_clock
                  scenario_loader "2026-11-03_10-00-00" "k3x9q_ab"
                  "data/flows.csv" "mappings.xlsx" [] "Wave4"
                  (init_world scenario_files)))
       !! "data/nutella_2026-11-03_10-00-00.csv" = Some [["old"]].
Proof.
  split; [reflexivity|].
  change (Some [["old"]])
    with (scenario_files !! final_path "2026-11-03_10-00-00" "data/flows.csv").
  apply (proj1 (atomic_publication no_ipv6
                  (fault_at 11 (OSError "No space left on device")) tick_clock
                  scenario_loader "2026-11-03_10-00-00" "k3x9q_ab"
                  "data/flows.csv" "mappings.xlsx" [] "Wave4" scenario_files)
               (OSError "No space left on device")).
  - reflexivity.
  - vm_compute. intuition discriminate.
Defined.

(* ===================================================================== *)
(** * The progress callback *)
(* ===================================================================== *)

Lemma percent_bounds (processed total : Z) :
  0 <= processed <= total -> 0 <= percent processed total <= 100.
Proof.
  intros H. unfold percent. destruct (Z.eqb_spec total 0) as [->|Hne]; [lia|].
  split.
  - apply Z.div_pos; lia.
  - apply Z.div_le_upper_bound; lia.
Qed.

Lemma percent_mono (p q total : Z) :
  0 <= total -> p <= q -> percent p total <= percent q total.
Proof.
  intros Ht H. unfold percent. destruct (Z.eqb_spec total 0) as [->|Hne]; [lia|].
  apply Z.div_le_mono; lia.
Qed.

Lemma progress_values_app (a b : list event) :
  progress_values (a ++ b) = (progress_values a ++ progress_values b)%list.
Proof. apply flat_map_app. Qed.

Lemma StronglySorted_snoc {A} (R : A -> A -> Prop) (l : list A) (y : A) :
  StronglySorted R l -> Forall (fun x => R x y) l -> StronglySorted R (l ++ [y])%list.
Proof.
  induction 1 as [|x l Hs IH Hx]; intros Hy; simpl.
  - repeat constructor.
  - inversion Hy as [|? ? Hxy Hl]; subst. constructor; [auto|].
    apply Forall_app. split; [exact Hx | repeat constructor; exact Hxy].
Qed.

Section ProgressInvariant.
Implicit Types (fs : gmap string csv_table) (evs : list event).

Lemma progress_ok_quiet ub fs fs' evs ev :
  ~ is_progress ev ->
  progress_ok ub fs evs -> progress_ok ub fs' (evs ++ [ev])%list.
Proof.
  intros Hev H. unfold progress_ok in *. rewrite progress_values_app.
  destruct ev; simpl in *; try (rewrite app_nil_r; exact H). tauto.
Qed.

Lemma progress_ok_mono ub ub' fs evs :
  ub <= ub' -> progress_ok ub fs evs -> progress_ok ub' fs evs.
Proof.
  intros Hle [Hb Hs]. split; [|exact Hs].
  rewrite Forall_forall in *. intros p Hp. specialize (Hb p Hp). lia.
Qed.

(** A value at least as large as the bound may be sent next. *)
Lemma progress_ok_push ub p fs evs :
  0 <= p -> ub <= p ->
  progress_ok ub fs evs -> progress_ends_with p fs (evs ++ [EvProgress p])%list.
Proof.
  intros Hp Hle [Hb Hs]. unfold progress_ends_with, progress_ok.
  rewrite progress_values_app. simpl. split; [split|].
  - apply Forall_app. split; [|repeat constructor; lia].
    rewrite Forall_forall in *. intros q Hq. specialize (Hb q Hq). lia.
  - apply StronglySorted_snoc; [exact Hs|].
    rewrite Forall_forall in *. intros q Hq. specialize (Hb q Hq). lia.
  - eauto.
Qed.

Lemma progress_ends_with_quiet p fs fs' evs ev :
  ~ is_progress ev ->
  progress_ends_with p fs evs -> progress_ends_with p fs' (evs ++ [ev])%list.
Proof.
  intros Hev [Hok [earlier He]]. split; [now apply (progress_ok_quiet p fs)|].
  exists earlier. rewrite progress_values_app, He.
  destruct ev; simpl in *; try apply app_nil_r. tauto.
Qed.
End ProgressInvariant.

Section ProgressRun.
Variable IPv6Network_of_string : string -> option (Z * Z).
Variable fault : nat -> option exn.
Variable clock : nat -> Q.
Variable load_workbook : option (string -> exn + workbook).

Lemma keeps_log_progress_ok ub l : keeps (on (progress_ok ub)) (log_put fault l).
Proof. apply keeps_effect. intros fs evs H. now apply (progress_ok_quiet ub fs). Qed.

(** Reading the records of the first pass returns their count and
    keeps any invariant that reading keeps. *)
Lemma count_rows_value (I : world -> Prop) server_filter wave_filter fieldnames
    records total w :
  keeps I (read_next fault) -> I w ->
  wp (count_rows fault server_filter wave_filter fieldnames records total)
     (fun v w' => v = total + count_included server_filter wave_filter fieldnames records
                  /\ I w')
     (fun _ => I) w.
Proof.
  intros Hread. revert total w.
  induction records as [|record rest IH]; intros total w HI; simpl.
  - apply wp_ret. unfold count_included. simpl. split; [lia | exact HI].
  - apply (wp_bind_keeps I); auto. intros _ w' HI'.
    eapply wp_mono; [| |apply IH, HI']; simpl; auto.
    intros v w'' [-> HI'']. split; [|exact HI''].
    unfold count_included. simpl.
    destruct (included server_filter wave_filter fieldnames record); simpl; lia.
Qed.

Section Loop.
Variable total : Z.

(** The accounting of one round: the percentage of the new count
    bounds what has been sent, before and after. *)
Lemma report_progress_ok st w :
  0 <= processed st -> processed st + 1 <= total ->
  on (progress_ok (percent (processed st) total)) w ->
  wp (report_progress fault clock total st)
     (fun st' w' => processed st' = processed st + 1
                    /\ on (progress_ok (percent (processed st + 1) total)) w')
     (fun _ => on (progress_ok 100)) w.
Proof.
  intros H0 H1 Hw. set (pct := percent (processed st + 1) total).
  assert (Hpct : 0 <= pct <= 100) by (apply percent_bounds; lia).
  assert (Hmono : percent (processed st) total <= pct)
    by (apply percent_mono; lia).
  assert (HI : on (progress_ok pct) w).
  { revert Hw. apply progress_ok_mono, Hmono. }
  assert (HE : forall (e : exn) w', on (progress_ok pct) w' -> on (progress_ok 100) w').
  { intros _ w'. apply progress_ok_mono. lia. }
  clear Hw. unfold report_progress. fold pct.
  apply wp_bind, wp_time_time.
  apply (wp_bind_keeps (on (progress_ok pct))); auto.
  { match goal with |- keeps _ (if ?b then _ else _) => destruct b end;
      [|apply keeps_ret].
    apply keeps_bind; [apply keeps_log_progress_ok | intros _; apply keeps_ret]. }
  intros step w1 H1'.
  apply (wp_bind_keeps (on (progress_ok pct))); auto.
  { match goal with |- keeps _ (if ?b then _ else _) => destruct b end;
      [|apply keeps_ret].
    apply keeps_bind; [|intros _; apply keeps_ret].
    apply keeps_effect. intros fs evs H.
    apply (progress_ok_push pct pct fs evs); [lia | lia | exact H]. }
  intros t1 w2 H2.
  apply (wp_bind_keeps (on (progress_ok pct))); auto.
  { match goal with |- keeps _ (if ?b then _ else _) => destruct b end;
      [|apply keeps_ret].
    apply keeps_bind; [apply keeps_log_progress_ok | intros _; apply keeps_ret]. }
  intros t2 w3 H3. apply wp_ret. split; [reflexivity | exact H3].
Qed.

Variables (server_filter : list string) (wave_filter : string).
Variables (fieldnames out_fieldnames : list string).
Variable ip_to_service : gmap string string.
Variable subnet_index : list (ipaddress.network * string).
Variable tmp : string.

Lemma process_row_ok st r extras w :
  0 <= processed st -> processed st + 1 <= total ->
  on (progress_ok (percent (processed st) total)) w ->
  wp (process_row fault clock server_filter out_fieldnames ip_to_service
                  subnet_index tmp total st r extras)
     (fun st' w' => processed st' = processed st + 1
                    /\ on (progress_ok (percent (processed st + 1) total)) w')
     (fun _ => on (progress_ok 100)) w.
Proof.
  intros H0 H1 Hw. unfold process_row.
  destruct (if nonempty server_filter then _ else _) as [out inb].
  apply (wp_bind_keeps (on (progress_ok (percent (processed st) total)))); auto.
  - apply keeps_writerow. intros fs evs record H.
    now apply (progress_ok_quiet _ fs).
  - intros _ w'. apply progress_ok_mono.
    apply (percent_bounds (processed st) total). lia.
  - intros _ w' Hw'.
    apply (report_progress_ok
             (LoopState (processed st) (next_step st) (last_ui_progress st)
                        (last_ui_log st) out inb) w'); assumption.
Qed.

(** The second pass, when the count of the first pass is the number
    of rows still to come plus the rows already processed. *)
Lemma process_rows_ok records st w :
  0 <= processed st ->
  processed st + count_included server_filter wave_filter fieldnames records = total ->
  on (progress_ok (percent (processed st) total)) w ->
  wp (process_rows fault clock server_filter wave_filter fieldnames out_fieldnames
                   ip_to_service subnet_index tmp total records st)
     (fun _ => on (progress_ok 100))
     (fun _ => on (progress_ok 100)) w.
Proof.
  revert st w. induction records as [|record rest IH]; intros st w H0 Ht Hw.
  - apply wp_ret. revert Hw. apply progress_ok_mono.
    apply (percent_bounds (processed st) total).
    unfold count_included in Ht. simpl in Ht. lia.
  - assert (Hrest : 0 <= count_included server_filter wave_filter fieldnames rest)
      by (unfold count_included; lia).
    assert (Hle : percent (processed st) total <= 100).
    { apply (percent_bounds (processed st) total).
      unfold count_included in *. simpl in Ht.
      destruct (included server_filter wave_filter fieldnames record);
        simpl in Ht; lia. }
    simpl.
    apply (wp_bind_keeps (on (progress_ok (percent (processed st) total)))); auto.
    + apply keeps_effect. intros fs evs H. now rewrite app_nil_r.
    + intros _ w'. apply progress_ok_mono, Hle.
    + intros _ w' Hw'. unfold count_included in Ht. simpl in Ht.
      destruct (included server_filter wave_filter fieldnames record) eqn:Hinc.
      * destruct (dict_row fieldnames record) as [r extras].
        apply wp_bind.
        simpl length in Ht.
        apply (wp_mono _
                 (fun st' w'' =>
                    processed st' = processed st + 1
                    /\ on (progress_ok (percent (processed st + 1) total)) w'')
                 _ (fun _ => on (progress_ok 100)) _ w').
        -- intros st' w'' [Hp Hw'']. apply IH.
           ++ lia.
           ++ unfold count_included. lia.
           ++ rewrite Hp. exact Hw''.
        -- auto.
        -- apply process_row_ok; [lia | lia | exact Hw'].
      * apply IH; auto.
Qed.
End Loop.

Variables timestamp tmp_random : string.
Variables selected_file selected_excel : string.
Variable server_filter : list string.
Variable wave_filter : string.

Lemma percent_zero total : percent 0 total = 0.
Proof. unfold percent. destruct (total =? 0); reflexivity. Qed.

(** The two passes over the same records. *)
Lemma transform_progress ip_to_service subnet_index src w :
  on (progress_ok 0) w ->
  wp (transform fault clock tmp_random selected_file server_filter wave_filter
                ip_to_service subnet_index src)
     (fun _ => on (progress_ok 100))
     (fun _ => on (progress_ok 100)) w.
Proof.
  intros Hw.
  assert (HE : forall (e : exn) w', on (progress_ok 0) w' -> on (progress_ok 100) w').
  { intros _ w'. apply progress_ok_mono. lia. }
  assert (Hread : keeps (on (progress_ok 0)) (read_next fault)).
  { apply keeps_effect. intros fs evs H. now rewrite app_nil_r. }
  unfold transform. cbv zeta.
  apply (wp_bind_keeps (on (progress_ok 0))); auto. intros _ w1 H1.
  destruct src as [|fieldnames records]; [apply wp_raise, (HE (TypeError "")), H1|].
  destruct (nonempty _); [apply wp_raise, (HE (TypeError "")), H1|].
  destruct (_ && _); [apply wp_raise, (HE (TypeError "")), H1|].
  apply (wp_bind_keeps (on (progress_ok 0))); auto.
  { apply keeps_effect. intros fs evs H. now apply (progress_ok_quiet 0 fs). }
  intros _ w2 H2. apply wp_bind.
  eapply wp_mono;
    [| |apply (count_rows_value (on (progress_ok 0)) server_filter wave_filter
                 fieldnames records 0 w2 Hread H2)]; [|exact HE].
  intros total w3 [Ht H3]. simpl.
  apply (wp_bind_keeps (on (progress_ok 0))); auto using keeps_log_progress_ok.
  intros _ w4 H4.
  apply (wp_bind_keeps (on (progress_ok 0))); auto. intros _ w5 H5.
  apply wp_bind.
  apply (wp_mono _ (fun _ => on (progress_ok 100)) _ (fun _ => on (progress_ok 100)) _ w5).
  - intros st w6 H6.
    apply (wp_bind_keeps (on (progress_ok 100))); auto.
    apply keeps_effect. intros fs evs H. now apply (progress_ok_quiet 100 fs).
  - auto.
  - apply process_rows_ok; simpl.
    + lia.
    + lia.
    + rewrite percent_zero. exact H5.
Qed.

(** The whole run. *)
Lemma run_progress w :
  on (progress_ok 0) w ->
  wp (run_user_python_code IPv6Network_of_string fault clock load_workbook
        timestamp tmp_random selected_file selected_excel server_filter wave_filter)
     (fun _ => on (progress_ends_with 100))
     (fun _ => on (progress_ok 100)) w.
Proof.
  intros Hw.
  assert (HE : forall (e : exn) w', on (progress_ok 0) w' -> on (progress_ok 100) w').
  { intros _ w'. apply progress_ok_mono. lia. }
  assert (Hlog : forall l, keeps (on (progress_ok 0)) (log_put fault l))
    by (intros l; apply keeps_log_progress_ok).
  assert (Hopen : forall p, keeps (on (progress_ok 0)) (open_read fault p)).
  { intros p. apply keeps_open_read. intros fs evs H. now apply (progress_ok_quiet 0 fs). }
  unfold run_user_python_code.
  destruct (negb (PyStr.truthy selected_file)); [apply wp_raise, (HE (TypeError "")), Hw|].
  destruct (negb (PyStr.truthy selected_excel)); [apply wp_raise, (HE (TypeError "")), Hw|].
  apply (wp_bind_keeps (on (progress_ok 0))); auto. intros _ w1 H1.
  apply (wp_bind_keeps (on (progress_ok 0))); auto using keeps_load_mappings.
  intros [srv_map loc_map] w2 H2.
  apply (wp_bind_keeps (on (progress_ok 0))); auto. intros _ w3 H3.
  apply (wp_bind_keeps (on (progress_ok 0))); auto. intros _ w4 H4.
  apply (wp_bind_keeps (on (progress_ok 0))); auto. intros lines w5 H5.
  apply (wp_bind_keeps (on (progress_ok 0))); auto. intros _ w6 H6.
  apply (wp_bind_keeps (on (progress_ok 0))); auto using keeps_when. intros _ w7 H7.
  apply (wp_bind_keeps (on (progress_ok 0))); auto using keeps_when. intros _ w8 H8.
  apply (wp_bind_keeps (on (progress_ok 0))); auto using keeps_time_time. intros t0 w9 H9.
  apply (wp_bind_keeps (on (progress_ok 0))); auto. intros _ w10 H10.
  apply (wp_bind_keeps (on (progress_ok 0))); auto. intros src w11 H11.
  apply (wp_bind_keeps (on (progress_ok 0))); auto.
  { apply keeps_effect. intros fs evs H. now apply (progress_ok_quiet 0 fs). }
  intros _ w12 H12. apply wp_bind.
  apply (wp_mono _ (fun _ => on (progress_ok 100)) _ (fun _ => on (progress_ok 100)) _ w12);
    [|auto|apply transform_progress, H12].
  intros st w13 H13. apply wp_bind, wp_effect; [intros e _; exact H13|]. intros _.
  match goal with
  | |- wp ?c _ _ ?w14 =>
      assert (H14 : on (progress_ends_with 100) w14)
        by (apply (progress_ok_push 100 100); [lia | lia | exact H13]);
      apply (wp_mono c (fun _ => on (progress_ends_with 100)) _
                       (fun _ => on (progress_ends_with 100)) _ w14)
  end.
  - auto.
  - intros e w' [H _]. exact H.
  - assert (Hk : forall l, keeps (on (progress_ends_with 100)) (log_put fault l)).
    { intros l. apply keeps_effect. intros fs evs H.
      now apply (progress_ends_with_quiet 100 fs). }
    refine (keeps_bind _ _ _ _ _ _ H14).
    { apply keeps_effect. intros fs evs H. now apply (progress_ends_with_quiet 100 fs). }
    intros _. apply keeps_bind; [apply Hk|]. intros _.
    apply keeps_bind; [apply Hk|]. intros _.
    apply keeps_when, keeps_bind; [apply Hk|]. intros _.
    apply keeps_for_each. intros srv. apply Hk.
Qed.
End ProgressRun.

(** C6.  Progress callback invariant: within one run of
    [run_user_python_code] (the two passes read the same records), every
    value passed to the progress callback is an integer between 0 and
    100 and the values passed never decrease, whatever the clock
    readings that throttle them and wherever the run may fail; a run
    that succeeds sends 100 last. *)
Theorem progress_callback_invariant
    (IPv6Network_of_string : string -> option (Z * Z))
    (fault : nat -> option exn) (clock : nat -> Q)
    (load_workbook : option (string -> exn + workbook))
    (timestamp tmp_random selected_file selected_excel : string)
    (server_filter : list string) (wave_filter : string)
    (fs : gmap string csv_table) :
  let res := run_user_python_code IPv6Network_of_string fault clock load_workbook
               timestamp tmp_random selected_file selected_excel
               server_filter wave_filter (init_world fs) in
  let values := progress_values (w_events (snd res)) in
  Forall (fun p => 0 <= p <= 100) values
  /\ StronglySorted Z.le values
  /\ (fst res = inr tt -> exists earlier, values = (earlier ++ [100])%list).
Proof.
  intros res values.
  assert (H0 : on (progress_ok 0) (init_world fs))
    by (split; constructor).
  pose proof (run_progress IPv6Network_of_string fault clock load_workbook
                timestamp tmp_random selected_file selected_excel
                server_filter wave_filter (init_world fs) H0) as H.
  unfold wp in H. subst values. fold res in H. destruct res as [[e|[]] w']; simpl.
  - destruct H as [Hb Hs]. repeat split; [exact Hb | exact Hs | discriminate].
  - destruct H as [[Hb Hs] He]. repeat split; [exact Hb | exact Hs | intros _; exact He].
Qed.

(* ===================================================================== *)
(** * Runs without injected failure *)
(* ===================================================================== *)

Section NoFault.
Variable fault : nat -> option exn.
Hypothesis no_injection : forall n, fault n = None.

Lemma wp_effect_run {Q : unit -> world -> Prop} {E} ev upd fs evs t c :
  Q tt (World (upd fs) (evs ++ ev) (S t) c) ->
  wp (effect fault ev upd) Q E (World fs evs t c).
Proof.
  intros H. apply wp_effect; [|auto]. intros e He.
  rewrite no_injection in He. discriminate.
Qed.

Lemma wp_open_read_run {Q : csv_table -> world -> Prop} {E} path table fs evs t c :
  fs !! path = Some table ->
  Q table (World fs (evs ++ [EvOpen path]) (S t) c) ->
  wp (open_read fault path) Q E (World fs evs t c).
Proof.
  intros Hp H. unfold open_read. apply wp_bind, wp_effect_run.
  unfold wp. simpl. unfold id. rewrite Hp. exact H.
Qed.

Lemma wp_when_log_run {Q : unit -> world -> Prop} {E} (b : bool) l fs evs t c :
  (forall (logged : list event) t',
      logged = [] \/ logged = [EvLog l] -> Q tt (World fs (evs ++ logged) t' c)) ->
  wp (when b (log_put fault l)) Q E (World fs evs t c).
Proof.
  intros HQ. destruct b; simpl.
  - apply wp_effect_run. apply HQ. auto.
  - apply wp_ret. specialize (HQ [] t (or_introl eq_refl)).
    now rewrite app_nil_r in HQ.
Qed.

Lemma wp_time_time_run {Q : Q -> world -> Prop} {E} clock fs evs t c :
  Q (clock c) (World fs evs t (S c)) ->
  wp (time_time clock) Q E (World fs evs t c).
Proof. exact id. Qed.
End NoFault.

Lemma wp_load_mappings_run {Q : service_map * location_map -> world -> Prop} {E}
    IPv6Network_of_string load xlsx_path wb maps w :
  PyStr.truthy xlsx_path = true ->
  load xlsx_path = inr wb ->
  load_mappings_from_workbook IPv6Network_of_string wb = inr maps ->
  Q maps w ->
  wp (load_mappings_from_excel IPv6Network_of_string (Some load) xlsx_path) Q E w.
Proof.
  intros Ht Hl Hm H. unfold load_mappings_from_excel. rewrite Ht, Hl, Hm. exact H.
Qed.

(* ===================================================================== *)
(** * Schema errors *)
(* ===================================================================== *)

(** C8, as stated, fails: when a filter column and a name column are
    both absent, the single error lists the filter column only. *)
Lemma schema_error_counterexample :
  ~ (forall (server_filter : list string) (fs : gmap string csv_table)
            (header : list string) (records : csv_table),
        fs !! "data/flows.csv" = Some (header :: records) ->
        let res := run_user_python_code no_ipv6 no_fault tick_clock scenario_loader
                     "2026-11-03_10-00-00" "k3x9q_ab" "data/flows.csv" "mappings.xlsx"
                     server_filter "" (init_world fs) in
        forall c, In c (missing_columns server_filter header) ->
                  exists msg, fst res = inl (ValueError msg)
                              /\ PyStr.contains c msg = true).
Proof.
  intros H.
  destruct (H ["host1"] headless_files
              ["dest_group"; "src_addr"; "dest_addr"; "dest_port"; "dest_name"] []
              eq_refl "src_name") as (msg & Hres & Hc).
  - vm_compute. auto.
  - vm_compute in Hres. injection Hres as <-. vm_compute in Hc. discriminate.
Qed.

Lemma missing_filter_columns_listed (header : list string) :
  let missing := List.filter (fun c => negb (str_in c header)) FILTER_COLUMNS in
  forall c, In c missing ->
            PyStr.contains c ("Missing columns: " ++ PyStr.join ", " missing) = true.
Proof.
  simpl.
  destruct (str_in "src_group" header), (str_in "dest_group" header); simpl;
    intros c Hc; repeat (destruct Hc as [<-|Hc]; [reflexivity|]); contradiction.
Qed.

Section SchemaRun.
Variable IPv6Network_of_string : string -> option (Z * Z).
Variable fault : nat -> option exn.
Variable clock : nat -> Q.
Variable load : string -> exn + workbook.
Variables timestamp tmp_random selected_file selected_excel : string.
Variable server_filter : list string.
Variable wave_filter : string.
Variable fs : gmap string csv_table.
Variable wb : workbook.
Variable maps : service_map * location_map.
Variables (header : list string) (records : csv_table).

Hypothesis no_injection : forall n, fault n = None.
Hypothesis file_given : PyStr.truthy selected_file = true.
Hypothesis excel_given : PyStr.truthy selected_excel = true.
Hypothesis workbook_read : load selected_excel = inr wb.
Hypothesis mappings_loaded :
  load_mappings_from_workbook IPv6Network_of_string wb = inr maps.
Hypothesis input_present : fs !! selected_file = Some (header :: records).

Let missing := List.filter (fun c => negb (str_in c header)) FILTER_COLUMNS.
Let names_absent :=
  nonempty server_filter
  && (negb (str_in "src_name" header) || negb (str_in "dest_name" header)).

Lemma run_schema_error :
  nonempty missing || names_absent = true ->
  wp (run_user_python_code IPv6Network_of_string fault clock (Some load)
        timestamp tmp_random selected_file selected_excel server_filter wave_filter)
     (fun _ _ => False)
     (fun e w => e = schema_error header
                 /\ Forall (fun ev => is_processing ev = false) (w_events w))
     (init_world fs).
Proof.
  intros Hbad. unfold run_user_python_code, init_world.
  rewrite file_given, excel_given. simpl negb. cbv iota.
  apply wp_bind, (wp_effect_run fault no_injection).
  apply wp_bind, wp_load_mappings_run with (wb := wb) (maps := maps);
    [exact excel_given | exact workbook_read | exact mappings_loaded|].
  destruct maps as [srv_map loc_map].
  apply wp_bind, (wp_effect_run fault no_injection).
  apply wp_bind, (wp_effect_run fault no_injection).
  apply wp_bind, (wp_open_read_run fault no_injection _ (header :: records));
    [exact input_present|].
  apply wp_bind, (wp_effect_run fault no_injection).
  apply wp_bind, (wp_when_log_run fault no_injection). intros logged1 t1 Hlogged1.
  apply wp_bind, (wp_when_log_run fault no_injection). intros logged2 t2 Hlogged2.
  apply wp_bind, wp_time_time_run.
  apply wp_bind, (wp_effect_run fault no_injection).
  apply wp_bind, (wp_open_read_run fault no_injection _ (header :: records));
    [exact input_present|].
  apply wp_bind, (wp_effect_run fault no_injection).
  apply wp_bind. unfold transform. cbv zeta.
  apply wp_bind, (wp_effect_run fault no_injection).
  unfold schema_error. fold missing. fold names_absent.
  destruct (nonempty missing); [|simpl in Hbad; rewrite Hbad];
    (apply wp_raise; split; [reflexivity|]);
    cbn [w_events];
    repeat (apply Forall_app; split); try (repeat constructor);
    destruct Hlogged1 as [->| ->], Hlogged2 as [->| ->]; repeat constructor.
Qed.
End SchemaRun.

(** C8, amended.  In a run without injected failure, with the mappings
    loaded and the input present: if a filter column is absent from the
    header, the run fails before Processing (no record written, no
    progress sent) with a single error whose message lists every missing
    filter column; otherwise, if a server filter is configured and
    src_name or dest_name is absent, it fails before Processing with a
    single error whose fixed message names both columns. *)
Theorem schema_error_reporting
    (IPv6Network_of_string : string -> option (Z * Z))
    (fault : nat -> option exn) (clock : nat -> Q)
    (load : string -> exn + workbook)
    (timestamp tmp_random selected_file selected_excel : string)
    (server_filter : list string) (wave_filter : string)
    (fs : gmap string csv_table)
    (wb : workbook) (maps : service_map * location_map)
    (header : list string) (records : csv_table) :
  (forall n, fault n = None) ->
  PyStr.truthy selected_file = true ->
  PyStr.truthy selected_excel = true ->
  load selected_excel = inr wb ->
  load_mappings_from_workbook IPv6Network_of_string wb = inr maps ->
  fs !! selected_file = Some (header :: records) ->
  let res := run_user_python_code IPv6Network_of_string fault clock (Some load)
               timestamp tmp_random selected_file selected_excel
               server_filter wave_filter (init_world fs) in
  let missing := List.filter (fun c => negb (str_in c header)) FILTER_COLUMNS in
  let names_message := "Colonne 'src_name' o 'dest_name' non trovate nel CSV" in
  (missing <> [] ->
   fst res = inl (ValueError ("Missing columns: " ++ PyStr.join ", " missing))
   /\ (forall c, In c missing ->
                 PyStr.contains c ("Missing columns: " ++ PyStr.join ", " missing) = true)
   /\ Forall (fun ev => is_processing ev = false) (w_events (snd res)))
  /\ (missing = [] -> server_filter <> [] ->
      str_in "src_name" header = false \/ str_in "dest_name" header = false ->
      fst res = inl (ValueError names_message)
      /\ PyStr.contains "src_name" names_message = true
      /\ PyStr.contains "dest_name" names_message = true
      /\ Forall (fun ev => is_processing ev = false) (w_events (snd res))).
Proof.
  intros Hnf Hfile Hexcel Hload Hmaps Hfs res missing names_message.
  pose proof (run_schema_error IPv6Network_of_string fault clock load
                timestamp tmp_random selected_file selected_excel server_filter
                wave_filter fs wb maps header records
                Hnf Hfile Hexcel Hload Hmaps Hfs) as H.
  unfold wp in H. fold res in H. unfold schema_error in H. fold missing in H.
  split.
  - intros Hm.
    assert (Hne : nonempty missing = true) by (destruct missing; [congruence | reflexivity]).
    rewrite Hne in H. specialize (H eq_refl).
    destruct res as [[e|[]] w']; [|contradiction]. destruct H as [-> Hq].
    split; [reflexivity|]. split; [|exact Hq].
    apply missing_filter_columns_listed.
  - intros Hm Hsf Hnames. rewrite Hm in H. simpl in H.
    assert (Hbad : nonempty server_filter
                   && (negb (str_in "src_name" header) || negb (str_in "dest_name" header))
                   = true).
    { destruct server_filter; [congruence|]. simpl.
      destruct Hnames as [-> | ->]; simpl; [reflexivity | apply orb_true_r]. }
    specialize (H Hbad).
    destruct res as [[e|[]] w']; [|contradiction]. destruct H as [-> Hq].
    repeat split; [exact Hq].
Qed.

(** A header without dest_group: the error lists dest_group, and
    nothing was processed. *)
Lemma schema_error_reporting_witness :
  fst (run_user_python_code no_ipv6 no_fault tick_clock scenario_loader
         "2026-11-03_10-00-00" "k3x9q_ab" "data/flows.csv" "mappings.xlsx"
         [] "Wave4" (init_world groupless_files))
  = inl (ValueError "Missing columns: dest_group")
  /\ PyStr.contains "dest_group" "Missing columns: dest_group" = true
  /\ Forall (fun ev => is_processing ev = false)
            (w_events (snd (run_user_python_code no_ipv6 no_fault tick_clock
                              scenario_loader "2026-11-03_10-00-00" "k3x9q_ab"
                              "data/flows.csv" "mappings.xlsx"
                              [] "Wave4" (init_world groupless_files)))).
Proof.
  destruct (proj1 (schema_error_reporting no_ipv6 no_fault tick_clock
                     (fun _ => inr scenario_workbook)
                     "2026-11-03_10-00-00" "k3x9q_ab" "data/flows.csv" "mappings.xlsx"
                     [] "Wave4" groupless_files scenario_workbook
                     ([], [("DC1", ["10.0.0.0/24"])])
                     ["src_group"; "src_addr"; "dest_addr"; "dest_port"] []
                     (fun n => eq_refl) eq_refl eq_refl eq_refl eq_refl eq_refl))
    as (Hres & Hlist & Hquiet).
  - vm_compute. congruence.
  - split; [exact Hres|]. split; [|exact Hquiet].
    apply Hlist. left. reflexivity.
Defined.

(* ===================================================================== *)
(** * Milestone log lines *)
(* ===================================================================== *)

(** C7 does not hold of the code.  On the input with a single surviving
    row the run succeeds and the processed percentage is 100 after that
    row, so all five thresholds 0, 25, 50, 75, 100 are reached; yet the
    only milestone line logged is the first one (the lines of 25, 50,
    75 and 100 are missing): a round of the loop advances by at most
    one threshold.  On an input without surviving
    row no milestone line is logged at all. *)
Theorem milestones_single_row_run :
  let run := run_user_python_code no_ipv6 no_fault tick_clock scenario_loader
               "2026-11-03_10-00-00" "k3x9q_ab" "data/flows.csv" "mappings.xlsx"
               [] "Wave4" in
  let one := run (init_world scenario_files) in
  let none := run (init_world other_wave_files) in
  fst one = inr tt
  /\ progress_values (w_events (snd one)) = [100; 100]
  /\ milestone_lines (w_events (snd one)) = [nth 0 STEPS ""]
  /\ fst none = inr tt
  /\ milestone_lines (w_events (snd none)) = [].
Proof.
  vm_compute. repeat split; reflexivity.
Qed.

(* ===================================================================== *)
(** * More on the string operations *)
(* ===================================================================== *)

Lemma string_app_assoc (a b c : string) : (a ++ b) ++ c = a ++ b ++ c.
Proof. induction a as [|x a IH]; string_app; [reflexivity | now rewrite IH]. Qed.

Lemma string_app_nil_r (a : string) : a ++ "" = a.
Proof. induction a as [|x a IH]; string_app; [reflexivity | now rewrite IH]. Qed.

(** [needle in hay] holds when [hay] splits around [needle]. *)
Lemma contains_spec (needle hay : string) :
  PyStr.contains needle hay = true <-> exists pre post, hay = pre ++ needle ++ post.
Proof.
  induction hay as [|c hay IH]; cbn [PyStr.contains].
  - rewrite orb_false_r, prefix_app_iff. split.
    + intros [post E]. exists "", post. exact E.
    + intros (pre & post & E). destruct pre; [|discriminate]. string_app. eauto.
  - rewrite orb_true_iff, prefix_app_iff, IH. split.
    + intros [[post E]|(pre & post & E)].
      * exists "", post. exact E.
      * exists (String c pre), post. string_app. now rewrite E.
    + intros (pre & post & E). destruct pre as [|d pre]; string_app.
      * left. eauto.
      * right. injection E as -> E. eauto.
Qed.

Lemma contains_empty (hay : string) : PyStr.contains "" hay = true.
Proof. apply contains_spec. exists "", hay. reflexivity. Qed.

Lemma lower_app (a b : string) : PyStr.lower (a ++ b) = PyStr.lower a ++ PyStr.lower b.
Proof.
  induction a as [|c a IH]; string_app; simpl; [reflexivity|].
  string_app. now rewrite IH.
Qed.

(** Folding the case of both sides keeps a match. *)
Lemma contains_lower (needle hay : string) :
  PyStr.contains needle hay = true ->
  PyStr.contains (PyStr.lower needle) (PyStr.lower hay) = true.
Proof.
  rewrite !contains_spec. intros (pre & post & ->).
  exists (PyStr.lower pre), (PyStr.lower post). now rewrite !lower_app.
Qed.

Lemma strip_nonempty_clean (s : string) :
  PyStr.truthy (PyStr.strip s) = true -> PyStr.strip s <> "".
Proof. destruct (PyStr.strip s); simpl; congruence. Qed.

(* ===================================================================== *)
(** * More on the row filter *)
(* ===================================================================== *)





(** X3.  The case-insensitive wave filter accepts every row the
    case-sensitive one accepts. *)
Theorem case_insensitive_filter_accepts_more
    (r : row) (wave_filter : string) (server_filter filter_columns : list string) :
  should_include_row r wave_filter server_filter filter_columns true = true ->
  should_include_row r wave_filter server_filter filter_columns false = true.
Proof.
  unfold should_include_row. destruct (PyStr.truthy wave_filter); [|exact id].
  cbv zeta.
  destruct (existsb (fun col => PyStr.contains wave_filter (or_empty (get r col)))
                    filter_columns) eqn:Hcs; [|discriminate].
  apply existsb_exists in Hcs as (col & Hin & Hc).
  assert (Hci : existsb (fun col => PyStr.contains (PyStr.lower wave_filter)
                                      (PyStr.lower (or_empty (get r col))))
                        filter_columns = true).
  { apply existsb_exists. exists col. split; [exact Hin | now apply contains_lower]. }
  rewrite Hci. exact id.
Qed.

Lemma case_insensitive_filter_accepts_more_witness :
  should_include_row wave_row "Wave4" [] FILTER_COLUMNS false = true.
Proof.
  apply case_insensitive_filter_accepts_more. reflexivity.
Defined.

Lemma lower_char_idem (c : ascii) :
  PyStr.lower_char (PyStr.lower_char c) = PyStr.lower_char c.
Proof.
  destruct c as [[] [] [] [] [] [] [] []]; reflexivity.
Qed.

Lemma lower_idem (s : string) : PyStr.lower (PyStr.lower s) = PyStr.lower s.
Proof.
  induction s as [|c s IH]; simpl; [reflexivity|].
  now rewrite lower_char_idem, IH.
Qed.

Lemma existsb_map {A B} (f : B -> bool) (g : A -> B) (l : list A) :
  existsb f (map g l) = existsb (fun x => f (g x)) l.
Proof. induction l as [|x l IH]; simpl; [reflexivity | now rewrite IH]. Qed.

Lemma existsb_pointwise {A} (f g : A -> bool) (l : list A) :
  (forall x, f x = g x) -> existsb f l = existsb g l.
Proof.
  intros H. induction l as [|x l IH]; simpl; [reflexivity | now rewrite H, IH].
Qed.

(** X4.  Server names are matched without regard to their case:
    writing the names of the server filter in lower case changes no
    decision of [should_include_row]. *)
Theorem server_filter_ignores_case
    (r : row) (wave_filter : string) (server_filter filter_columns : list string)
    (case_sensitive : bool) :
  should_include_row r wave_filter (map PyStr.lower server_filter)
                     filter_columns case_sensitive
  = should_include_row r wave_filter server_filter filter_columns case_sensitive.
Proof.
  unfold should_include_row.
  destruct server_filter as [|srv sf]; [reflexivity|].
  cbn [map]. cbv zeta.
  change (PyStr.lower srv :: map PyStr.lower sf) with (map PyStr.lower (srv :: sf)).
  rewrite existsb_map.
  assert (E : existsb (fun x => PyStr.contains (PyStr.lower (PyStr.lower x))
                                  (norm_field r "src_name")
                                || PyStr.contains (PyStr.lower (PyStr.lower x))
                                     (norm_field r "dest_name")) (srv :: sf)
              = existsb (fun x => PyStr.contains (PyStr.lower x) (norm_field r "src_name")
                                  || PyStr.contains (PyStr.lower x)
                                       (norm_field r "dest_name")) (srv :: sf)).
  { apply existsb_pointwise. intros x. now rewrite lower_idem. }
  rewrite E. reflexivity.
Qed.

(** X5.  An empty name in the server filter matches every row: a
    server filter that contains the empty name rejects nothing that the
    empty server filter keeps. *)
Theorem empty_server_name_matches_all
    (r : row) (wave_filter : string) (server_filter filter_columns : list string)
    (case_sensitive : bool) :
  In "" server_filter ->
  should_include_row r wave_filter server_filter filter_columns case_sensitive
  = should_include_row r wave_filter [] filter_columns case_sensitive.
Proof.
  intros Hin. unfold should_include_row.
  destruct server_filter as [|srv sf]; [reflexivity|]. cbv zeta.
  assert (E : existsb (fun x => PyStr.contains (PyStr.lower x) (norm_field r "src_name")
                                || PyStr.contains (PyStr.lower x)
                                     (norm_field r "dest_name")) (srv :: sf) = true).
  { apply existsb_exists. exists "". split; [exact Hin|].
    simpl PyStr.lower. now rewrite contains_empty. }
  rewrite E. reflexivity.
Qed.

Lemma empty_server_name_matches_all_witness :
  should_include_row wave_row "Wave4" ["no-such-server"; ""] FILTER_COLUMNS CASE_SENSITIVE
  = should_include_row wave_row "Wave4" [] FILTER_COLUMNS CASE_SENSITIVE.
Proof.
  apply empty_server_name_matches_all. right. left. reflexivity.
Defined.

(** X6.  The server filter read from the entry of the window never
    holds an empty name: every name is non-empty, trimmed, and the trim
    of one comma-separated piece of the trimmed text; a text of white
    space only gives the empty filter. *)
Theorem parse_server_filter_names (text : string) :
  (all_space text = true -> parse_server_filter text = [])
  /\ (forall s, In s (parse_server_filter text) ->
        s <> "" /\ PyStr.strip s = s
        /\ exists piece, In piece (PyStr.split "," (PyStr.strip text))
                         /\ s = PyStr.strip piece).
Proof.
  unfold parse_server_filter. split.
  - intros H. now rewrite (strip_all_space _ H).
  - intros s. destruct (PyStr.truthy (PyStr.strip text)); [|intros []].
    rewrite in_map_iff. intros (piece & <- & Hin).
    apply filter_In in Hin as [Hin Hne].
    split; [now apply strip_nonempty_clean|].
    split; [apply strip_idem|]. eauto.
Qed.

Lemma parse_server_filter_names_witness :
  parse_server_filter "   " = []
  /\ "SERVER2" <> "" /\ PyStr.strip "SERVER2" = "SERVER2".
Proof.
  split.
  - apply (proj1 (parse_server_filter_names "   ")). reflexivity.
  - destruct (proj2 (parse_server_filter_names " SERVER1, ,SERVER2 ,") "SERVER2")
      as (H1 & H2 & _).
    + vm_compute. auto.
    + split; assumption.
Defined.

(* ===================================================================== *)
(** * More on the location lookup *)
(* ===================================================================== *)

Lemma first_match_None (x : Z) (index : list (ipaddress.network * string)) :
  first_match x index = None
  <-> Forall (fun e => ipaddress.contains (fst e) x = false) index.
Proof.
  induction index as [|[n l] rest IH]; simpl.
  - split; [constructor | reflexivity].
  - destruct (ipaddress.contains n x) eqn:Hc.
    + split; [discriminate|]. intros H. inversion H as [|? ? H1 H2]; subst.
      simpl in H1. congruence.
    + rewrite IH. split; [intros H; constructor; assumption|].
      intros H. inversion H; assumption.
Qed.

(** On a list ordered by descending prefix length the scan returns the
    location of an entry that contains the address and that no other
    entry containing the address is more specific than. *)
Lemma first_match_most_specific (x : Z) (index : list (ipaddress.network * string))
    (loc : string) :
  StronglySorted by_prefix_desc index ->
  first_match x index = Some loc ->
  exists n, In (n, loc) index /\ ipaddress.contains n x = true
            /\ forall n' l', In (n', l') index -> ipaddress.contains n' x = true ->
                             ipaddress.prefixlen n' <= ipaddress.prefixlen n.
Proof.
  induction 1 as [|[n0 l0] rest Hs IH H0]; simpl; [discriminate|].
  destruct (ipaddress.contains n0 x) eqn:Hc.
  - intros E. injection E as <-. exists n0. split; [now left|]. split; [exact Hc|].
    intros n' l' [E|Hin] _; [injection E as <- _; lia|].
    rewrite Forall_forall in H0. apply list_elem_of_In, H0 in Hin. exact Hin.
  - intros E. destruct (IH E) as (n & Hin & Hcn & Hmax).
    exists n. split; [now right|]. split; [exact Hcn|].
    intros n' l' [E'|Hin'] Hc'; [injection E' as <- _; congruence|].
    now apply (Hmax n' l').
Qed.

(** When no entry containing the address has a prefix longer than [p]
    and one of prefix [p] contains it, the scan of the ordered list is
    the scan of its entries of prefix [p]. *)
Lemma first_match_top_prefix (x : Z) (index : list (ipaddress.network * string)) (p : Z) :
  StronglySorted by_prefix_desc index ->
  (forall n l, In (n, l) index -> ipaddress.contains n x = true ->
               ipaddress.prefixlen n <= p) ->
  (exists n l, In (n, l) index /\ ipaddress.contains n x = true
               /\ ipaddress.prefixlen n = p) ->
  first_match x index
  = first_match x (List.filter (fun e => ipaddress.prefixlen (fst e) =? p) index).
Proof.
  induction 1 as [|[n0 l0] rest Hs IH H0]; intros Hub (n & l & Hin & Hc & Hp).
  - destruct Hin.
  - cbn [first_match List.filter fst].
    destruct (ipaddress.contains n0 x) eqn:Hc0.
    + assert (E : ipaddress.prefixlen n0 = p).
      { assert (Hle := Hub n0 l0 (or_introl eq_refl) Hc0).
        destruct Hin as [E|Hin]; [injection E as <- _; exact Hp|].
        rewrite Forall_forall in H0. apply list_elem_of_In, H0 in Hin.
        unfold by_prefix_desc in Hin. simpl in Hin. lia. }
      apply Z.eqb_eq in E. rewrite E. cbn [first_match]. now rewrite Hc0.
    + assert (Hrest : first_match x rest
                      = first_match x (List.filter
                                         (fun e => ipaddress.prefixlen (fst e) =? p) rest)).
      { apply IH.
        - intros n' l' Hin'. apply (Hub n' l'). now right.
        - destruct Hin as [E|Hin]; [injection E as <- _; congruence|]. eauto. }
      destruct (ipaddress.prefixlen n0 =? p); [|exact Hrest].
      cbn [first_match]. now rewrite Hc0.
Qed.

Lemma find_location_parsed (s : string) (x : Z)
    (index : list (ipaddress.network * string)) :
  ipaddress.IPv4Address (PyStr.strip s) = Some x ->
  find_location_for_ip (Some s) index = first_match x index.
Proof.
  intros Hx. unfold find_location_for_ip. simpl or_empty.
  now rewrite (IPv4Address_nonempty _ _ Hx), Hx.
Qed.

(** X7.  Whatever [find_location_for_ip] returns on the compiled index
    is sound and of maximal specificity: the text parses (once trimmed)
    as an IPv4 address, the LocationMap lists under the returned
    location a CIDR whose network contains the address, and no entry of
    the index that contains the address has a longer prefix. *)
Theorem find_location_sound_and_most_specific
    (IPv6Network_of_string : string -> option (Z * Z))
    (lm : location_map) (ip_str : option string) (loc : string) :
  let index := build_subnet_index IPv6Network_of_string lm in
  find_location_for_ip ip_str index = Some loc ->
  exists x network cidrs cidr,
    ipaddress.IPv4Address (PyStr.strip (or_empty ip_str)) = Some x
    /\ In (loc, cidrs) lm /\ In cidr cidrs
    /\ ip_network IPv6Network_of_string (PyStr.strip cidr) = Some network
    /\ ipaddress.contains network x = true
    /\ forall network' loc', In (network', loc') index ->
                             ipaddress.contains network' x = true ->
                             ipaddress.prefixlen network' <= ipaddress.prefixlen network.
Proof.
  intros index. unfold find_location_for_ip.
  destruct (negb (PyStr.truthy (PyStr.strip (or_empty ip_str)))); [discriminate|].
  destruct (ipaddress.IPv4Address (PyStr.strip (or_empty ip_str))) as [x|];
    [|discriminate].
  intros Hm.
  destruct (first_match_most_specific x index loc
              (build_subnet_index_sorted _ lm) Hm) as (n & Hin & Hc & Hmax).
  apply build_subnet_index_In in Hin as (cidrs & cidr & Hl & Hcidr & Hn).
  exists x, n, cidrs, cidr. auto 10.
Qed.

Lemma find_location_sound_and_most_specific_witness :
  exists x network cidrs cidr,
    ipaddress.IPv4Address (PyStr.strip (or_empty (Some " 10.1.2.77 "))) = Some x
    /\ In ("LAN", cidrs) nested_locations /\ In cidr cidrs
    /\ ip_network no_ipv6 (PyStr.strip cidr) = Some network
    /\ ipaddress.contains network x = true
    /\ forall network' loc',
        In (network', loc') (build_subnet_index no_ipv6 nested_locations) ->
        ipaddress.contains network' x = true ->
        ipaddress.prefixlen network' <= ipaddress.prefixlen network.
Proof.
  apply (find_location_sound_and_most_specific no_ipv6 nested_locations
           (Some " 10.1.2.77 ") "LAN").
  reflexivity.
Defined.

(** X8.  [find_location_for_ip] finds a location whenever there is one:
    it returns nothing exactly when the trimmed text is no IPv4 address
    (the missing, empty and blank texts included) or no entry of the
    index contains the address. *)
Theorem find_location_none_iff
    (ip_str : option string) (index : list (ipaddress.network * string)) :
  find_location_for_ip ip_str index = None
  <-> ipaddress.IPv4Address (PyStr.strip (or_empty ip_str)) = None
      \/ exists x, ipaddress.IPv4Address (PyStr.strip (or_empty ip_str)) = Some x
                   /\ Forall (fun e => ipaddress.contains (fst e) x = false) index.
Proof.
  unfold find_location_for_ip.
  destruct (PyStr.strip (or_empty ip_str)) as [|c s] eqn:Hs.
  - simpl. split; [intros _; left; reflexivity | reflexivity].
  - cbn [PyStr.truthy negb].
    destruct (ipaddress.IPv4Address (String c s)) as [x|].
    + rewrite first_match_None. split.
      * intros H. right. eauto.
      * intros [H|(y & E & H)]; [discriminate|]. now injection E as <-.
    + split; [auto | reflexivity].
Qed.

(** X9.  Ties are broken by the order of the LocationMap: when the most
    specific networks that contain an address have prefix length [p],
    the location returned is that of the first network of prefix length
    [p], in the order in which the LocationMap lists its CIDRs, that
    contains the address. *)
Theorem equal_prefix_tie_break
    (IPv6Network_of_string : string -> option (Z * Z))
    (lm : location_map) (ip_str : string) (x p : Z) :
  let compiled := compile_subnets IPv6Network_of_string lm in
  ipaddress.IPv4Address (PyStr.strip ip_str) = Some x ->
  (forall n l, In (n, l) compiled -> ipaddress.contains n x = true ->
               ipaddress.prefixlen n <= p) ->
  (exists n l, In (n, l) compiled /\ ipaddress.contains n x = true
               /\ ipaddress.prefixlen n = p) ->
  find_location_for_ip (Some ip_str) (build_subnet_index IPv6Network_of_string lm)
  = first_match x (List.filter (fun e => ipaddress.prefixlen (fst e) =? p) compiled).
Proof.
  intros compiled Hx Hub (n & l & Hin & Hc & Hp).
  rewrite (find_location_parsed _ _ _ Hx).
  assert (Hperm : forall e, In e (build_subnet_index IPv6Network_of_string lm)
                            <-> In e compiled).
  { intros e. unfold build_subnet_index.
    rewrite <- !list_elem_of_In, sort_desc_perm. reflexivity. }
  rewrite (first_match_top_prefix x _ p (build_subnet_index_sorted _ lm)).
  - unfold build_subnet_index.
    now rewrite (sort_desc_stable (fun item => ipaddress.prefixlen (fst item))).
  - intros n' l' Hin'. apply (Hub n' l'), Hperm, Hin'.
  - exists n, l. split; [apply Hperm, Hin | auto].
Qed.

Lemma equal_prefix_tie_break_witness :
  find_location_for_ip (Some "10.0.0.5") (build_subnet_index no_ipv6 tied_locations)
  = Some "Torino".
Proof.
  rewrite (equal_prefix_tie_break no_ipv6 tied_locations "10.0.0.5" 167772165 24).
  - reflexivity.
  - reflexivity.
  - intros n l Hin _. vm_compute in Hin.
    destruct Hin as [E|[E|[E|[]]]]; injection E as <- _; simpl; lia.
  - exists (ipaddress.IPv4Network 167772160 24), "Alba".
    split; [right; right; left; reflexivity | split; reflexivity].
Defined.

(* ===================================================================== *)
(** * Networks written with host bits, and bare addresses *)
(* ===================================================================== *)

Lemma prefix_empty (s : string) : String.prefix "" s = true.
Proof. destruct s; reflexivity. Qed.

Lemma contains_char_cons (sep c : ascii) (s : string) :
  PyStr.contains (String sep "") (String c s) = false ->
  Ascii.eqb c sep = false /\ PyStr.contains (String sep "") s = false.
Proof.
  cbn [PyStr.contains String.prefix]. rewrite prefix_empty.
  destruct (ascii_dec sep c) as [->|Hne]; [discriminate|].
  simpl. intros H. split; [|exact H].
  apply Ascii.eqb_neq. congruence.
Qed.

(** [s.split(sep)] of a text without the separator is the text alone. *)
Lemma split_no_sep (sep : ascii) (s : string) :
  PyStr.contains (String sep "") s = false -> PyStr.split sep s = [s].
Proof.
  induction s as [|c s IH]; [reflexivity|].
  intros H. apply contains_char_cons in H as [Hc Hs].
  simpl. rewrite Hc, (IH Hs). reflexivity.
Qed.

Lemma split_app (sep : ascii) (a b : string) :
  PyStr.contains (String sep "") a = false ->
  PyStr.split sep (a ++ String sep b) = a :: PyStr.split sep b.
Proof.
  induction a as [|c a IH]; intros H.
  - rewrite string_app_nil. simpl. now rewrite Ascii.eqb_refl.
  - apply contains_char_cons in H as [Hc Ha].
    rewrite string_app_cons. simpl. rewrite Hc, (IH Ha). reflexivity.
Qed.

Lemma all_digits_no_slash (s : string) :
  PyStr.all_digits s = true -> PyStr.contains "/" s = false.
Proof.
  induction s as [|c s IH]; [reflexivity|].
  simpl PyStr.all_digits. intros H. apply andb_prop in H as [Hc Hs].
  cbn [PyStr.contains String.prefix]. rewrite prefix_empty, (IH Hs).
  destruct (ascii_dec "/" c) as [<-|_]; [discriminate Hc | reflexivity].
Qed.

Lemma IPv4Address_no_slash (s : string) (x : Z) :
  ipaddress.IPv4Address s = Some x -> PyStr.contains "/" s = false.
Proof.
  unfold ipaddress.IPv4Address. destruct (PyStr.contains "/" s); [discriminate | reflexivity].
Qed.

Lemma prefix_string_digits (m : string) (p : Z) :
  ipaddress.prefix_from_prefix_string m = Some p -> PyStr.all_digits m = true.
Proof.
  unfold ipaddress.prefix_from_prefix_string.
  destruct (PyStr.truthy m); simpl; [|discriminate].
  destruct (PyStr.all_digits m); [reflexivity | discriminate].
Qed.

(** [ip_network(a/m, strict=False)] of an address and a prefix length. *)
Lemma ip_network_masks (IPv6Network_of_string : string -> option (Z * Z))
    (a m : string) (x p : Z) :
  ipaddress.IPv4Address a = Some x ->
  ipaddress.prefix_from_prefix_string m = Some p ->
  ip_network IPv6Network_of_string (a ++ "/" ++ m)
  = Some (ipaddress.IPv4Network (Z.land x (ipaddress.netmask_of_prefix p)) p).
Proof.
  intros Ha Hm. unfold ip_network, ipaddress.IPv4Network_of_string.
  rewrite string_app_cons, string_app_nil.
  rewrite (split_app "/" a m (IPv4Address_no_slash _ _ Ha)).
  rewrite (split_no_sep "/" m (all_digits_no_slash _ (prefix_string_digits _ _ Hm))).
  unfold ipaddress.make_netmask. now rewrite Ha, Hm.
Qed.

(** X10.  A subnet may be written with host bits set: the CIDR "a/m" of
    a LocationMap, a an IPv4 address and m a prefix length, is compiled
    to the network of a masked to m bits, and the index then gives a
    location to the address a itself and to every address that agrees
    with a on the network bits. *)
Theorem host_bits_are_masked
    (IPv6Network_of_string : string -> option (Z * Z))
    (lm : location_map) (loc : string) (cidrs : list string) (cidr a m : string)
    (x p : Z) :
  let index := build_subnet_index IPv6Network_of_string lm in
  In (loc, cidrs) lm -> In cidr cidrs -> PyStr.strip cidr = a ++ "/" ++ m ->
  ipaddress.IPv4Address a = Some x ->
  ipaddress.prefix_from_prefix_string m = Some p ->
  In (ipaddress.IPv4Network (Z.land x (ipaddress.netmask_of_prefix p)) p, loc) index
  /\ forall (ip_str : string) (y : Z),
      ipaddress.IPv4Address (PyStr.strip ip_str) = Some y ->
      Z.land y (ipaddress.netmask_of_prefix p) = Z.land x (ipaddress.netmask_of_prefix p) ->
      is_Some (find_location_for_ip (Some ip_str) index).
Proof.
  intros index Hl Hc Hs Ha Hm.
  assert (Hin : In (ipaddress.IPv4Network (Z.land x (ipaddress.netmask_of_prefix p)) p, loc)
                   index).
  { apply build_subnet_index_In. exists cidrs, cidr. split; [exact Hl|].
    split; [exact Hc|]. rewrite Hs. now apply ip_network_masks. }
  split; [exact Hin|].
  intros ip_str y Hy Hbits. rewrite (find_location_parsed _ _ _ Hy).
  destruct (first_match y index) as [l|] eqn:Hf; [eauto|].
  apply first_match_None in Hf. rewrite Forall_forall in Hf.
  apply list_elem_of_In, Hf in Hin. simpl in Hin.
  apply Z.eqb_neq in Hin. contradiction.
Qed.

Lemma host_bits_are_masked_witness :
  In (ipaddress.IPv4Network 167838208 24, "Alba")
     (build_subnet_index no_ipv6 host_bits_locations)
  /\ is_Some (find_location_for_ip (Some "10.1.2.3")
                (build_subnet_index no_ipv6 host_bits_locations)).
Proof.
  destruct (host_bits_are_masked no_ipv6 host_bits_locations "Alba" [" 10.1.2.77/24 "]
              " 10.1.2.77/24 " "10.1.2.77" "24" 167838285 24) as [H1 H2].
  - left. reflexivity.
  - left. reflexivity.
  - reflexivity.
  - reflexivity.
  - reflexivity.
  - split; [exact H1|]. apply (H2 "10.1.2.3" 167838211); reflexivity.
Defined.

Lemma isdigit_value (c : ascii) :
  PyStr.isdigit c = true -> 0 <= Z.of_N (N_of_ascii c) - 48 <= 9.
Proof.
  unfold PyStr.isdigit. cbv zeta. intros H. apply andb_prop in H as [H1 H2].
  apply N.leb_le in H1, H2. lia.
Qed.

Lemma int_of_digits_acc_nonneg (s : string) (acc : Z) :
  PyStr.all_digits s = true -> 0 <= acc -> 0 <= PyStr.int_of_digits_acc acc s.
Proof.
  revert acc. induction s as [|c s IH]; intros acc; simpl; [auto|].
  intros H Hacc. apply andb_prop in H as [Hc Hs].
  apply IH; [exact Hs|]. apply isdigit_value in Hc. lia.
Qed.

Lemma parse_octet_range (s : string) (v : Z) :
  ipaddress.parse_octet s = Some v -> 0 <= v <= 255.
Proof.
  unfold ipaddress.parse_octet.
  destruct (negb (PyStr.truthy s)); [discriminate|].
  destruct (PyStr.all_digits s) eqn:Hd; simpl; [|discriminate].
  destruct (3 <? String.length s)%nat; [discriminate|].
  destruct (negb (String.eqb s "0") && String.prefix "0" s); [discriminate|].
  cbv zeta. destruct (255 <? PyStr.int_of_digits s) eqn:Hle; [discriminate|].
  intros E. injection E as <-. apply Z.ltb_ge in Hle.
  split; [|exact Hle]. now apply int_of_digits_acc_nonneg.
Qed.

Lemma lor_bound (a b : Z) : 0 <= a -> 0 <= b -> 0 <= Z.lor a b <= a + b.
Proof.
  intros Ha Hb. split; [now apply Z.lor_nonneg|].
  pose proof (Z.add_lor_land a b) as E.
  assert (0 <= Z.land a b) by (apply Z.land_nonneg; auto). lia.
Qed.

(** A parsed IPv4 address is a 32-bit number. *)
Lemma IPv4Address_range (s : string) (x : Z) :
  ipaddress.IPv4Address s = Some x -> 0 <= x < 2 ^ 32.
Proof.
  unfold ipaddress.IPv4Address, ipaddress.ip_int_from_string.
  destruct (PyStr.contains "/" s); [discriminate|].
  destruct (negb (PyStr.truthy s)); [discriminate|].
  destruct (PyStr.split "." s) as [|a [|b [|c [|d [|? ?]]]]]; try discriminate.
  destruct (ipaddress.parse_octet a) as [va|] eqn:Ha; [|discriminate].
  destruct (ipaddress.parse_octet b) as [vb|] eqn:Hb; [|discriminate].
  destruct (ipaddress.parse_octet c) as [vc|] eqn:Hc; [|discriminate].
  destruct (ipaddress.parse_octet d) as [vd|] eqn:Hd; [|discriminate].
  intros E. injection E as <-.
  apply parse_octet_range in Ha, Hb, Hc, Hd.
  rewrite !Z.shiftl_mul_pow2 by lia.
  pose proof (lor_bound (vc * 2 ^ 8) vd ltac:(lia) ltac:(lia)) as H1.
  pose proof (lor_bound (vb * 2 ^ 16) _ ltac:(lia) (proj1 H1)) as H2.
  pose proof (lor_bound (va * 2 ^ 24) _ ltac:(lia) (proj1 H2)) as H3.
  lia.
Qed.

Lemma land_all_ones (x : Z) : 0 <= x < 2 ^ 32 -> Z.land x ipaddress.ALL_ONES = x.
Proof.
  intros H. change ipaddress.ALL_ONES with (Z.ones 32).
  rewrite Z.land_ones by lia. now apply Z.mod_small.
Qed.

(** X11.  A subnet given as a bare address is a host route: the
    LocationMap entry is compiled to the /32 network of that address,
    which contains that address and no other. *)
Theorem bare_address_is_host_route
    (IPv6Network_of_string : string -> option (Z * Z))
    (lm : location_map) (loc : string) (cidrs : list string) (cidr : string) (x : Z) :
  In (loc, cidrs) lm -> In cidr cidrs ->
  ipaddress.IPv4Address (PyStr.strip cidr) = Some x ->
  In (ipaddress.IPv4Network x 32, loc) (build_subnet_index IPv6Network_of_string lm)
  /\ forall (ip_str : string) (y : Z),
      ipaddress.IPv4Address ip_str = Some y ->
      (ipaddress.contains (ipaddress.IPv4Network x 32) y = true <-> y = x).
Proof.
  intros Hl Hc Hx. split.
  - apply build_subnet_index_In. exists cidrs, cidr. split; [exact Hl|].
    split; [exact Hc|].
    unfold ip_network, ipaddress.IPv4Network_of_string.
    rewrite (split_no_sep "/" _ (IPv4Address_no_slash _ _ Hx)). now rewrite Hx.
  - intros ip_str y Hy. apply IPv4Address_range in Hy.
    unfold ipaddress.contains.
    change (ipaddress.netmask_of_prefix 32) with ipaddress.ALL_ONES.
    rewrite (land_all_ones y Hy). apply Z.eqb_eq.
Qed.

Lemma bare_address_is_host_route_witness :
  In (ipaddress.IPv4Network 167838285 32, "Alba")
     (build_subnet_index no_ipv6 host_route_locations)
  /\ (ipaddress.contains (ipaddress.IPv4Network 167838285 32) 167838286 = true
      <-> 167838286 = 167838285).
Proof.
  destruct (bare_address_is_host_route no_ipv6 host_route_locations "Alba"
              ["10.1.2.77"] "10.1.2.77" 167838285) as [H1 H2].
  - left. reflexivity.
  - left. reflexivity.
  - reflexivity.
  - split; [exact H1|]. apply (H2 "10.1.2.78"). reflexivity.
Defined.

(* ===================================================================== *)
(** * The enrichment of one row *)
(* ===================================================================== *)

Lemma lookup_setitem_ne (r : row) (col col' v : string) :
  col <> col' -> setitem r col v !! col' = r !! col'.
Proof. intros H. unfold setitem. now rewrite lookup_insert_ne. Qed.

Lemma services_frame (r : row) idx (col : string) :
  col <> "src_service" -> col <> "dest_service" ->
  enrich_row_with_services r idx !! col = r !! col.
Proof.
  intros H1 H2. unfold enrich_row_with_services. cbv zeta.
  rewrite !lookup_setitem_ne by congruence. reflexivity.
Qed.

Lemma normalize_loc_frame (r : row) (col col' : string) :
  col <> col' -> normalize_loc r col !! col' = r !! col'.
Proof.
  intros H. unfold normalize_loc. cbv zeta.
  destruct (PyStr.truthy _); [|reflexivity].
  destruct (assoc_get _ _); [|reflexivity].
  now apply lookup_setitem_ne.
Qed.

Lemma locations_frame (r : row) si (col : string) :
  col <> "src_loc" -> col <> "dest_loc" ->
  enrich_row_with_locations r si !! col = r !! col.
Proof.
  intros H1 H2. unfold enrich_row_with_locations. cbv zeta. simpl fold_left.
  rewrite !normalize_loc_frame by congruence.
  destruct (find_location_for_ip (Some (PyStr.strip (or_empty (get r "dest_addr")))) si);
    destruct (find_location_for_ip (Some (PyStr.strip (or_empty (get r "src_addr")))) si);
    rewrite ?lookup_setitem_ne by congruence; reflexivity.
Qed.

Lemma comment_frame (r : row) (col : string) :
  col <> "COMMENTO" -> enrich_row_with_comment r !! col = r !! col.
Proof.
  intros H. unfold enrich_row_with_comment. cbv zeta.
  destruct (PyStr.truthy _); [|reflexivity].
  apply lookup_setitem_ne. congruence.
Qed.

Lemma get_lookup (r r' : row) (col col' : string) :
  r !! col = r' !! col' -> get r col = get r' col'.
Proof. unfold get. now intros ->. Qed.

Lemma enrichment_lookup (r : row) (ip_to_service : gmap string string)
    (subnet_index : list (ipaddress.network * string)) (col : string) :
  ~ In col NEW_COLUMNS ->
  enriched r ip_to_service subnet_index !! col = r !! col.
Proof.
  intros H. unfold NEW_COLUMNS in H. simpl in H. unfold enriched.
  rewrite comment_frame, locations_frame, services_frame
    by (intros ->; apply H; auto 10).
  reflexivity.
Qed.

(** X12.  The enrichment owns its five columns only: every other
    column of a row, present or absent, is after the three enrichment
    steps what it was before, and the enrichment adds no column beyond
    its five. *)
Theorem enrichment_frame (r : row) (ip_to_service : gmap string string)
    (subnet_index : list (ipaddress.network * string)) (col : string) :
  ~ In col NEW_COLUMNS ->
  enriched r ip_to_service subnet_index !! col = r !! col
  /\ get (enriched r ip_to_service subnet_index) col = get r col.
Proof.
  intros H. split; [now apply enrichment_lookup|].
  apply get_lookup. now apply enrichment_lookup.
Qed.

Lemma enrichment_frame_witness :
  enriched kms_row (build_ip_to_service_index kms_service_map) [] !! "bytes"
  = kms_row !! "bytes"
  /\ get (enriched kms_row (build_ip_to_service_index kms_service_map) []) "bytes"
     = get kms_row "bytes".
Proof.
  apply enrichment_frame. unfold NEW_COLUMNS. simpl.
  intros [H|[H|[H|[H|[H|[]]]]]]; discriminate H.
Defined.

Lemma service_label_get (r : row) idx :
  get (enrich_row_with_services r idx) "src_service"
  = Some (default "unknown" (idx !! PyStr.strip (or_empty (get r "src_addr"))))
  /\ get (enrich_row_with_services r idx) "dest_service"
     = Some (default "unknown" (idx !! PyStr.strip (or_empty (get r "dest_addr")))).
Proof.
  unfold enrich_row_with_services. cbv zeta. split.
  - rewrite get_setitem_ne by discriminate. apply get_setitem_eq.
  - apply get_setitem_eq.
Qed.

Lemma service_label_cases (sm : service_map) (addr : option string) :
  (forall v, default "unknown" (build_ip_to_service_index sm
                                  !! PyStr.strip (or_empty addr)) = v ->
             v = "unknown" \/ listed sm v addr)
  /\ (unlisted sm addr ->
      default "unknown" (build_ip_to_service_index sm
                           !! PyStr.strip (or_empty addr)) = "unknown").
Proof.
  split.
  - intros v <-.
    destruct (build_ip_to_service_index sm !! PyStr.strip (or_empty addr)) as [svc|] eqn:E;
      [|now left].
    right. apply service_index_key_origin in E as (ips & ip & Hin & Hip & E).
    exists ips, ip. auto.
  - intros Hun.
    destruct (build_ip_to_service_index sm !! PyStr.strip (or_empty addr)) as [svc|] eqn:E;
      [|reflexivity].
    apply service_index_key_origin in E as (ips & ip & Hin & Hip & E).
    exfalso. apply (Hun svc ips ip Hin Hip). now symmetry.
Qed.

(** X13.  Where a service label comes from: the label
    [enrich_row_with_services] gives to the source (destination) of a
    row is "unknown" or a service under which the ServiceMap lists an
    address that trims to the trimmed src_addr (dest_addr); it is
    "unknown" when the ServiceMap lists no such address. *)
Theorem service_label_origin (sm : service_map) (r : row) :
  let r' := enrich_row_with_services r (build_ip_to_service_index sm) in
  (forall v, get r' "src_service" = Some v ->
             v = "unknown" \/ listed sm v (get r "src_addr"))
  /\ (forall v, get r' "dest_service" = Some v ->
                v = "unknown" \/ listed sm v (get r "dest_addr"))
  /\ (unlisted sm (get r "src_addr") -> get r' "src_service" = Some "unknown")
  /\ (unlisted sm (get r "dest_addr") -> get r' "dest_service" = Some "unknown").
Proof.
  intros r'. subst r'.
  destruct (service_label_get r (build_ip_to_service_index sm)) as [Hs Hd].
  rewrite Hs, Hd.
  destruct (service_label_cases sm (get r "src_addr")) as [Hs1 Hs2].
  destruct (service_label_cases sm (get r "dest_addr")) as [Hd1 Hd2].
  repeat split.
  - intros v E. injection E as E. now apply Hs1.
  - intros v E. injection E as E. now apply Hd1.
  - intros H. now rewrite (Hs2 H).
  - intros H. now rewrite (Hd2 H).
Qed.

Lemma service_label_origin_witness :
  listed kms_service_map "KMS" (get kms_row "src_addr")
  /\ get (enrich_row_with_services kms_row (build_ip_to_service_index kms_service_map))
         "dest_service" = Some "unknown".
Proof.
  destruct (service_label_origin kms_service_map kms_row) as (H1 & _ & _ & H4).
  split.
  - destruct (H1 "KMS") as [H|H]; [reflexivity | discriminate H | exact H].
  - apply H4. intros service ips ip [E|[]] Hip. injection E as <- <-.
    destruct Hip as [<-|[]]. vm_compute. congruence.
Defined.

Lemma normalize_loc_get (r : row) (col : string) :
  get (normalize_loc r col) col = option_map normalized_loc (get r col).
Proof.
  unfold normalize_loc, normalized_loc. cbv zeta.
  destruct (get r col) as [v|] eqn:Hg; cbn [or_empty option_map].
  - destruct (PyStr.strip v) as [|c s] eqn:Hs.
    + cbn. exact Hg.
    + cbn [PyStr.truthy].
      destruct (assoc_get (PyStr.lower (String c s)) LOC_NORMALIZATION) as [n|].
      * apply get_setitem_eq.
      * exact Hg.
  - cbn. exact Hg.
Qed.

Lemma normalized_loc_clean (v : string) :
  assoc_get (PyStr.lower (PyStr.strip (normalized_loc v))) LOC_NORMALIZATION = None.
Proof.
  unfold normalized_loc.
  destruct (assoc_get (PyStr.lower (PyStr.strip v)) LOC_NORMALIZATION) as [n|] eqn:E;
    [|exact E].
  unfold LOC_NORMALIZATION in E. cbn [assoc_get] in E.
  destruct (String.eqb _ "risc-unknown-internet"); [injection E as <-; reflexivity|].
  destruct (String.eqb _ "risc-unknown-private"); [injection E as <-; reflexivity|].
  discriminate.
Qed.

Lemma find_location_trimmed (v : option string)
    (index : list (ipaddress.network * string)) :
  find_location_for_ip (Some (PyStr.strip (or_empty v))) index
  = find_location_for_ip v index.
Proof. unfold find_location_for_ip. simpl or_empty. now rewrite strip_idem. Qed.

(** What [enrich_row_with_locations] leaves in the two location columns. *)
Lemma location_label_get (r : row) (si : list (ipaddress.network * string)) :
  get (enrich_row_with_locations r si) "src_loc"
  = option_map normalized_loc
      (match find_location_for_ip (get r "src_addr") si with
       | Some loc => Some loc
       | None => get r "src_loc"
       end)
  /\ get (enrich_row_with_locations r si) "dest_loc"
     = option_map normalized_loc
         (match find_location_for_ip (get r "dest_addr") si with
          | Some loc => Some loc
          | None => get r "dest_loc"
          end).
Proof.
  unfold enrich_row_with_locations. cbv zeta. simpl fold_left.
  rewrite !find_location_trimmed. split.
  - rewrite (get_lookup _ _ "src_loc" "src_loc" (normalize_loc_frame _ "dest_loc" "src_loc"
                                                    ltac:(discriminate))).
    rewrite normalize_loc_get. f_equal.
    destruct (find_location_for_ip (get r "dest_addr") si);
      destruct (find_location_for_ip (get r "src_addr") si);
      rewrite ?get_setitem_eq, ?(get_setitem_ne _ "dest_loc" "src_loc") by discriminate;
      rewrite ?get_setitem_eq; reflexivity.
  - rewrite normalize_loc_get. f_equal.
    rewrite (get_lookup _ _ "dest_loc" "dest_loc" (normalize_loc_frame _ "src_loc" "dest_loc"
                                                      ltac:(discriminate))).
    destruct (find_location_for_ip (get r "dest_addr") si);
      destruct (find_location_for_ip (get r "src_addr") si);
      rewrite ?get_setitem_eq, ?(get_setitem_ne _ "src_loc" "dest_loc") by discriminate;
      reflexivity.
Qed.

(** X14.  The location columns after [enrich_row_with_locations]: the
    location found for the address when there is one, the value the row
    came with otherwise (an absent column stays absent), in both cases
    replaced by Public or Private when its trimmed, case-folded text is
    a raw token of the normalisation table. *)
Theorem location_label (r : row) (subnet_index : list (ipaddress.network * string)) :
  get (enrich_row_with_locations r subnet_index) "src_loc"
  = option_map normalized_loc
      (match find_location_for_ip (get r "src_addr") subnet_index with
       | Some loc => Some loc
       | None => get r "src_loc"
       end)
  /\ get (enrich_row_with_locations r subnet_index) "dest_loc"
     = option_map normalized_loc
         (match find_location_for_ip (get r "dest_addr") subnet_index with
          | Some loc => Some loc
          | None => get r "dest_loc"
          end).
Proof. apply location_label_get. Qed.

(** X15.  No raw token survives the location step: after
    [enrich_row_with_locations] neither location column holds a text
    that, trimmed and case-folded, is a key of the normalisation table,
    whatever the row and the LocationMap. *)
Theorem no_raw_location_token (r : row) (subnet_index : list (ipaddress.network * string))
    (col : string) :
  In col ["src_loc"; "dest_loc"] ->
  assoc_get (PyStr.lower (PyStr.strip
               (or_empty (get (enrich_row_with_locations r subnet_index) col))))
            LOC_NORMALIZATION = None.
Proof.
  destruct (location_label_get r subnet_index) as [Hs Hd].
  intros [<-|[<-|[]]].
  - rewrite Hs. clear Hs Hd.
    destruct (match find_location_for_ip _ _ with Some _ => _ | None => _ end);
      [apply normalized_loc_clean | reflexivity].
  - rewrite Hd. clear Hs Hd.
    destruct (match find_location_for_ip _ _ with Some _ => _ | None => _ end);
      [apply normalized_loc_clean | reflexivity].
Qed.

Lemma no_raw_location_token_witness :
  assoc_get (PyStr.lower (PyStr.strip
               (or_empty (get (enrich_row_with_locations kms_row []) "src_loc"))))
            LOC_NORMALIZATION = None.
Proof. apply no_raw_location_token. left. reflexivity. Defined.

Lemma enriched_inputs (r : row) idx si :
  let r2 := enrich_row_with_locations (enrich_row_with_services r idx) si in
  norm_field r2 "src_service"
  = PyStr.lower (PyStr.strip (default "unknown"
                                (idx !! PyStr.strip (or_empty (get r "src_addr")))))
  /\ norm_field r2 "dest_service"
     = PyStr.lower (PyStr.strip (default "unknown"
                                   (idx !! PyStr.strip (or_empty (get r "dest_addr")))))
  /\ get r2 "dest_port" = get r "dest_port"
  /\ get r2 "COMMENTO" = get r "COMMENTO".
Proof.
  intros r2. subst r2. destruct (service_label_get r idx) as [Hs Hd].
  unfold norm_field.
  rewrite (get_lookup _ _ "src_service" "src_service"
             (locations_frame _ si "src_service" ltac:(discriminate) ltac:(discriminate))).
  rewrite (get_lookup _ _ "dest_service" "dest_service"
             (locations_frame _ si "dest_service" ltac:(discriminate) ltac:(discriminate))).
  rewrite Hs, Hd. simpl or_empty. repeat split.
  - apply get_lookup. rewrite locations_frame, services_frame by discriminate. reflexivity.
  - apply get_lookup. rewrite locations_frame, services_frame by discriminate. reflexivity.
Qed.

(** X16.  The comment of a processed row, from the row as it was read:
    when the service index knows the trimmed source or destination
    address under a service other than "unknown" (trimmed, case-folded),
    COMMENTO is "skip shared services"; otherwise it is the label of the
    first port rule that matches dest_port and, when no rule matches,
    the COMMENTO the row came with. *)
Theorem pipeline_comment (r : row) (ip_to_service : gmap string string)
    (subnet_index : list (ipaddress.network * string)) :
  let src := default "unknown" (ip_to_service !! PyStr.strip (or_empty (get r "src_addr"))) in
  let dest := default "unknown" (ip_to_service !! PyStr.strip (or_empty (get r "dest_addr"))) in
  let label := first_port_comment PORT_COMMENTS (get r "dest_port") in
  (PyStr.lower (PyStr.strip src) <> "unknown" \/ PyStr.lower (PyStr.strip dest) <> "unknown" ->
   get (enriched r ip_to_service subnet_index) "COMMENTO" = Some "skip shared services")
  /\ (PyStr.lower (PyStr.strip src) = "unknown" ->
      PyStr.lower (PyStr.strip dest) = "unknown" ->
      get (enriched r ip_to_service subnet_index) "COMMENTO"
      = if PyStr.truthy label then Some label else get r "COMMENTO").
Proof.
  intros src dest label.
  destruct (enriched_inputs r ip_to_service subnet_index) as (Hs & Hd & Hp & Hc).
  fold src in Hs. fold dest in Hd.
  unfold enriched, enrich_row_with_comment. cbv zeta. rewrite Hs, Hd, Hp. split.
  - intros H.
    assert (Hb : negb (String.eqb (PyStr.lower (PyStr.strip src)) "unknown")
                 || negb (String.eqb (PyStr.lower (PyStr.strip dest)) "unknown") = true).
    { apply orb_true_iff. destruct H as [H|H]; [left|right];
        apply negb_true_iff, String.eqb_neq; exact H. }
    rewrite Hb. cbn [PyStr.truthy]. apply get_setitem_eq.
  - intros -> ->. simpl negb. simpl orb. cbv iota. fold label.
    destruct (PyStr.truthy label); [apply get_setitem_eq | exact Hc].
Qed.

Lemma pipeline_comment_witness :
  get (enriched kms_row (build_ip_to_service_index kms_service_map) []) "COMMENTO"
  = Some "skip shared services"
  /\ get (enriched commented_row (build_ip_to_service_index kms_service_map) []) "COMMENTO"
     = Some "checked by hand".
Proof.
  split.
  - apply (proj1 (pipeline_comment kms_row (build_ip_to_service_index kms_service_map) [])).
    left. vm_compute. congruence.
  - apply (proj2 (pipeline_comment commented_row
                    (build_ip_to_service_index kms_service_map) [])); reflexivity.
Defined.

(* ===================================================================== *)
(** * The output header and the records written *)
(* ===================================================================== *)

Lemma str_in_In (x : string) (l : list string) : str_in x l = true <-> In x l.
Proof.
  unfold str_in. rewrite existsb_exists. split.
  - intros (y & Hy & E). apply String.eqb_eq in E. now subst.
  - intros H. exists x. split; [exact H | apply String.eqb_refl].
Qed.

Lemma str_in_app (x : string) (l1 l2 : list string) :
  str_in x (l1 ++ l2)%list = str_in x l1 || str_in x l2.
Proof. unfold str_in. apply existsb_app. Qed.

(** Appending the absent columns one after the other appends the
    absent ones among them, when no column is named twice. *)
Lemma append_absent (cols h : list string) :
  NoDup cols ->
  fold_left (fun fs col => if existsb (String.eqb col) fs then fs else (fs ++ [col])%list)
            cols h
  = (h ++ List.filter (fun c => negb (str_in c h)) cols)%list.
Proof.
  intros Hnd. revert h. induction Hnd as [|c cols Hc Hnd IH]; intros h; simpl.
  - now rewrite app_nil_r.
  - rewrite IH. fold (str_in c h). destruct (str_in c h) eqn:Hin; simpl; [reflexivity|].
    rewrite <- app_assoc. simpl. do 2 f_equal.
    apply filter_ext_in. intros x Hx. rewrite str_in_app. simpl.
    destruct (String.eqb_spec x c) as [->|_]; [|now rewrite !orb_false_r].
    exfalso. apply Hc. now apply list_elem_of_In.
Qed.

Lemma filter_none {A} (f : A -> bool) (l : list A) :
  (forall x, In x l -> f x = false) -> List.filter f l = [].
Proof.
  induction l as [|x l IH]; intros H; simpl; [reflexivity|].
  rewrite (H x (or_introl eq_refl)). apply IH. intros y Hy. apply H. now right.
Qed.

Lemma NEW_COLUMNS_NoDup : NoDup NEW_COLUMNS.
Proof.
  unfold NEW_COLUMNS. repeat constructor; rewrite ?list_elem_of_In; simpl;
    intuition discriminate.
Qed.

Lemma output_fieldnames_eq (h : list string) :
  output_fieldnames h
  = (h ++ List.filter (fun c => negb (str_in c h)) NEW_COLUMNS)%list.
Proof. apply append_absent, NEW_COLUMNS_NoDup. Qed.

(** X17.  The output header is the input header followed by the new
    columns the input does not have, in their fixed order; it has each
    of the five new columns, and building it from an output header
    changes nothing. *)
Theorem output_header (h : list string) :
  output_fieldnames h
  = (h ++ List.filter (fun c => negb (str_in c h)) NEW_COLUMNS)%list
  /\ (forall c, In c NEW_COLUMNS -> In c (output_fieldnames h))
  /\ output_fieldnames (output_fieldnames h) = output_fieldnames h.
Proof.
  assert (Hall : forall c, In c NEW_COLUMNS -> In c (output_fieldnames h)).
  { intros c Hc. rewrite output_fieldnames_eq. apply in_app_iff.
    destruct (str_in c h) eqn:Hin; [left; now apply str_in_In|].
    right. apply filter_In. now rewrite Hin. }
  split; [apply output_fieldnames_eq|]. split; [exact Hall|].
  rewrite (output_fieldnames_eq (output_fieldnames h)).
  assert (E : List.filter (fun c => negb (str_in c (output_fieldnames h))) NEW_COLUMNS = []).
  { apply filter_none. intros c Hc. apply negb_false_iff, str_in_In, Hall, Hc. }
  rewrite E. apply app_nil_r.
Qed.

Lemma zip_row_other (ks : list string) (vs : list string) (r : row) (c : string) :
  ~ In c ks -> zip_row ks vs r !! c = r !! c.
Proof.
  revert vs r. induction ks as [|k ks IH]; intros vs r Hc; [reflexivity|].
  assert (Hk : k <> c) by (intros ->; apply Hc; now left).
  assert (Hks : ~ In c ks) by (intros H; apply Hc; now right).
  destruct vs as [|v vs]; simpl; rewrite (IH _ _ Hks); now apply lookup_insert_ne.
Qed.

(** The field of a column in the dictionary of a record, when the
    header names no column twice: the field at the position of the
    column, [None] past the end of the record. *)
Lemma zip_row_lookup (ks : list string) (vs : list string) (r : row) (i : nat) (c : string) :
  NoDup ks -> ks !! i = Some c -> zip_row ks vs r !! c = Some (vs !! i).
Proof.
  intros Hnd. revert vs r i. induction Hnd as [|k ks Hk Hnd IH]; intros vs r i Hi.
  - destruct i; discriminate.
  - destruct i as [|i]; simpl in Hi.
    + injection Hi as ->. rewrite list_elem_of_In in Hk.
      destruct vs as [|v vs]; simpl; rewrite (zip_row_other _ _ _ _ Hk);
        apply lookup_insert_eq.
    + destruct vs as [|v vs]; simpl.
      * rewrite (IH [] _ i Hi). now destruct i.
      * apply (IH vs _ i Hi).
Qed.

Lemma map_lookup {A B} (f : A -> B) (l : list A) (i : nat) :
  map f l !! i = option_map f (l !! i).
Proof.
  revert i. induction l as [|x l IH]; intros [|i]; simpl; auto.
Qed.

(** X18.  Input columns are copied: when the header names no column
    twice, the record written for a row has, at the position of every
    input column that is not one of the five new columns, the field the
    input record has there, and the empty field where the input record
    is too short. *)
Theorem input_columns_copied
    (header record : list string) (ip_to_service : gmap string string)
    (subnet_index : list (ipaddress.network * string)) (i : nat) (col : string) :
  NoDup header ->
  header !! i = Some col ->
  ~ In col NEW_COLUMNS ->
  row_record (output_fieldnames header)
             (enriched (fst (dict_row header record)) ip_to_service subnet_index) !! i
  = Some (default "" (record !! i)).
Proof.
  intros Hnd Hi Hcol. unfold row_record. rewrite map_lookup, output_fieldnames_eq.
  rewrite (lookup_app_l_Some _ _ _ _ Hi). cbn [option_map]. f_equal.
  unfold get. rewrite (enrichment_lookup _ _ _ _ Hcol).
  unfold dict_row. cbn [fst]. rewrite (zip_row_lookup _ _ _ _ _ Hnd Hi).
  destruct (record !! i); reflexivity.
Qed.

Lemma input_columns_copied_witness :
  row_record (output_fieldnames located_header)
             (enriched (fst (dict_row located_header short_record)) ∅ []) !! 2%nat
  = Some "".
Proof.
  apply (input_columns_copied located_header short_record ∅ [] 2 "dest_addr").
  - unfold located_header. repeat constructor; rewrite ?list_elem_of_In; simpl;
      intuition discriminate.
  - reflexivity.
  - unfold NEW_COLUMNS. simpl. intuition discriminate.
Defined.

(* ===================================================================== *)
(** * The traffic counters *)
(* ===================================================================== *)

Lemma zero_counts_from (sf : list string) (d : gmap string Z) (srv : string) :
  fold_left (fun d srv => <[srv := 0]> d) sf d !! srv
  = if str_in srv sf then Some 0 else d !! srv.
Proof.
  unfold str_in. revert d.
  induction sf as [|s sf IH]; intros d; cbn [fold_left existsb]; [reflexivity|].
  rewrite IH. destruct (existsb (String.eqb srv) sf); [now rewrite orb_true_r|].
  rewrite orb_false_r. destruct (String.eqb_spec srv s) as [->|Hne].
  - apply lookup_insert_eq.
  - apply lookup_insert_ne. congruence.
Qed.

Lemma zero_counts_lookup (sf : list string) (srv : string) :
  In srv sf -> zero_counts sf !! srv = Some 0.
Proof.
  intros H. unfold zero_counts. rewrite zero_counts_from.
  apply str_in_In in H. now rewrite H.
Qed.

Lemma incr_lookup (srv srv' : string) (count : gmap string Z) (n : Z) :
  count !! srv = Some n ->
  incr srv' count !! srv = Some (if String.eqb srv' srv then n + 1 else n).
Proof.
  intros H. unfold incr. destruct (String.eqb_spec srv' srv) as [->|Hne].
  - rewrite lookup_insert_eq, H. reflexivity.
  - rewrite lookup_insert_ne by exact Hne. exact H.
Qed.

(** One row adds to the counter of a server one unit for each time the
    server filter names the server, when the name of the row contains
    the server name. *)
Lemma update_counts_lookup (sf : list string) (r : row) (out inb : gmap string Z)
    (srv : string) (n m : Z) :
  out !! srv = Some n -> inb !! srv = Some m ->
  fst (update_counts sf r (out, inb)) !! srv
  = Some (n + if PyStr.contains (PyStr.lower srv) (norm_field r "src_name")
              then Z.of_nat (count_occ string_dec sf srv) else 0)
  /\ snd (update_counts sf r (out, inb)) !! srv
     = Some (m + if PyStr.contains (PyStr.lower srv) (norm_field r "dest_name")
                 then Z.of_nat (count_occ string_dec sf srv) else 0).
Proof.
  unfold update_counts. cbv zeta.
  revert out inb n m. induction sf as [|s sf IH]; intros out inb n m Ho Hi.
  - simpl. rewrite Ho, Hi.
    destruct (PyStr.contains _ _), (PyStr.contains _ _); rewrite ?Z.add_0_r; auto.
  - cbn [fold_left count_occ].
    destruct (string_dec s srv) as [->|Hne].
    + pose proof (incr_lookup srv srv _ _ Ho) as Ho1. rewrite String.eqb_refl in Ho1.
      pose proof (incr_lookup srv srv _ _ Hi) as Hi1. rewrite String.eqb_refl in Hi1.
      destruct (PyStr.contains (PyStr.lower srv) (norm_field r "src_name")) eqn:Es;
        destruct (PyStr.contains (PyStr.lower srv) (norm_field r "dest_name")) eqn:Ed.
      * destruct (IH _ _ _ _ Ho1 Hi1) as [H1 H2]. rewrite ?Es, ?Ed in H1, H2.
        rewrite H1, H2. split; f_equal; lia.
      * destruct (IH _ _ _ _ Ho1 Hi) as [H1 H2]. rewrite ?Es, ?Ed in H1, H2.
        rewrite H1, H2. split; f_equal; lia.
      * destruct (IH _ _ _ _ Ho Hi1) as [H1 H2]. rewrite ?Es, ?Ed in H1, H2.
        rewrite H1, H2. split; f_equal; lia.
      * destruct (IH _ _ _ _ Ho Hi) as [H1 H2]. rewrite ?Es, ?Ed in H1, H2.
        rewrite H1, H2. split; f_equal; lia.
    + pose proof (incr_lookup srv s _ _ Ho) as Ho1.
      pose proof (incr_lookup srv s _ _ Hi) as Hi1.
      apply String.eqb_neq in Hne. rewrite Hne in Ho1, Hi1.
      destruct (PyStr.contains (PyStr.lower s) (norm_field r "src_name"));
        destruct (PyStr.contains (PyStr.lower s) (norm_field r "dest_name")).
      * apply (IH _ _ _ _ Ho1 Hi1).
      * apply (IH _ _ _ _ Ho1 Hi).
      * apply (IH _ _ _ _ Ho Hi1).
      * apply (IH _ _ _ _ Ho Hi).
Qed.

Lemma count_directions_from (sf : list string) (rows : list row)
    (counts : gmap string Z * gmap string Z) (srv : string) (n m : Z) :
  fst counts !! srv = Some n -> snd counts !! srv = Some m ->
  let result := fold_left (fun counts r => update_counts sf r counts) rows counts in
  fst result !! srv
  = Some (n + Z.of_nat (count_occ string_dec sf srv)
              * Z.of_nat (length (rows_naming srv "src_name" rows)))
  /\ snd result !! srv
     = Some (m + Z.of_nat (count_occ string_dec sf srv)
                 * Z.of_nat (length (rows_naming srv "dest_name" rows))).
Proof.
  revert counts n m. induction rows as [|r rows IH]; intros [out inb] n m Ho Hi;
    cbn [fst snd] in Ho, Hi; cbv zeta.
  - cbn. rewrite Ho, Hi. split; f_equal; lia.
  - cbn [fold_left].
    destruct (update_counts_lookup sf r out inb srv n m Ho Hi) as [Ho' Hi'].
    destruct (IH _ _ _ Ho' Hi') as [H1 H2]. cbv zeta in H1, H2. rewrite H1, H2.
    unfold rows_naming. cbn [List.filter].
    destruct (PyStr.contains (PyStr.lower srv) (norm_field r "src_name")),
      (PyStr.contains (PyStr.lower srv) (norm_field r "dest_name"));
      cbn [length]; split; f_equal; lia.
Qed.

(** X19.  What the traffic counters count: for a server of the server
    filter, the outbound (inbound) counter after the rows that passed
    the filter is the number of those rows whose normalised src_name
    (dest_name) contains the lower-cased server name, multiplied by the
    number of times the server filter names that server. *)
Theorem counts_per_server (server_filter : list string) (rows : list row) (srv : string) :
  In srv server_filter ->
  fst (count_directions server_filter rows) !! srv
  = Some (Z.of_nat (count_occ string_dec server_filter srv)
          * Z.of_nat (length (rows_naming srv "src_name" rows)))
  /\ snd (count_directions server_filter rows) !! srv
     = Some (Z.of_nat (count_occ string_dec server_filter srv)
             * Z.of_nat (length (rows_naming srv "dest_name" rows))).
Proof.
  intros Hin. unfold count_directions.
  apply (count_directions_from server_filter rows _ srv 0 0);
    simpl; now apply zero_counts_lookup.
Qed.

Lemma counts_per_server_witness :
  fst (count_directions ["srv"; "alba"; "srv"] [wave_row; self_talking_row]) !! "srv"
  = Some (Z.of_nat (count_occ string_dec ["srv"; "alba"; "srv"] "srv")
          * Z.of_nat (length (rows_naming "srv" "src_name" [wave_row; self_talking_row])))
  /\ snd (count_directions ["srv"; "alba"; "srv"] [wave_row; self_talking_row]) !! "srv"
     = Some (Z.of_nat (count_occ string_dec ["srv"; "alba"; "srv"] "srv")
             * Z.of_nat (length (rows_naming "srv" "dest_name" [wave_row; self_talking_row]))).
Proof. apply counts_per_server. left. reflexivity. Defined.
